(** * Active-window tracking of the KWin effect [ActiveClientEffect]

    A shallow embedding of
    [src/client/kdeactiveeventlistener/activeclienteffect.cpp]:
    the effect object, the compositor it reads from, the single-shot timers
    it arms and the D-Bus signals it sends, followed by the properties of
    the retry / slow-poll state machine. *)

From Stdlib Require Import ZArith String Ascii List Bool Lia.
From stdpp Require Import base decidable gmap sets.
Import ListNotations.

Local Open Scope string_scope.
Local Open Scope list_scope.
Local Open Scope Z_scope.

(** ** Data model *)

(** A [Window*] is an opaque handle; [nullptr] is [None] of [option Window]. *)
Abbreviation Window := positive (only parsing).

(** [QString] values (class and caption).  The effect only tests them for
    emptiness, for their first character and for equality. *)
Abbreviation QString := string (only parsing).

(** What the effect reads from KWin: [workspace()->activeWindow()] and, for
    a live window, [resourceClass()] and [caption()].  The compositor owns
    this state; the effect only observes it when a slot runs. *)
Record Workspace := mkWorkspace {
  activeWindow : option Window;
  resourceClass : Window -> QString;
  caption : Window -> QString
}.

(** The member names of the interface [org.ahkwayland.ActiveWindow]. *)
Inductive SignalName := Created | Changed | Destroyed | Initial.

(** A message built by [sendDBusSignal]: signal name, then the two
    arguments in the order they are streamed into the message. *)
Record DBusMessage := mkMessage {
  member : SignalName;
  windowClass : QString;
  windowTitle : QString
}.

(** The receivers handed to [QTimer::singleShot]. *)
Inductive Slot :=
| SlotRetryCheck (attempt : Z)   (* the lambda armed by retryActiveWindowTitle *)
| SlotPollWindowTitle
| SlotOnActiveClientChanged
| SlotEmitInitialState.

Record Timer := mkTimer { due : Z; receiver : Slot }.

(** Modelled from the spec: the header [activeclienteffect.h] is not part of
    the sources; the two members are the "ActiveWindowRef" (at most one
    window, a weak reference) and the "PolledSet" (a set of window handles)
    of the data model.

    The remaining fields make the effects of the Qt calls explicit: the
    virtual clock in milliseconds, the pending single-shot timers, the
    [captionChanged] connections made so far and the messages sent on the
    session bus, oldest first. *)
Record ActiveClientEffect := mkEffect {
  m_lastActiveWindow : option Window;
  m_polledWindows : gset positive;
  clock : Z;
  timers : list Timer;
  captionConnections : list positive;
  sessionBus : list DBusMessage
}.

Definition set_lastActiveWindow (w : option Window) (e : ActiveClientEffect) :=
  mkEffect w (m_polledWindows e) (clock e) (timers e)
           (captionConnections e) (sessionBus e).

Definition set_polledWindows (s : gset positive) (e : ActiveClientEffect) :=
  mkEffect (m_lastActiveWindow e) s (clock e) (timers e)
           (captionConnections e) (sessionBus e).

Definition set_clock (t : Z) (e : ActiveClientEffect) :=
  mkEffect (m_lastActiveWindow e) (m_polledWindows e) t (timers e)
           (captionConnections e) (sessionBus e).

Definition set_timers (ts : list Timer) (e : ActiveClientEffect) :=
  mkEffect (m_lastActiveWindow e) (m_polledWindows e) (clock e) ts
           (captionConnections e) (sessionBus e).

Definition set_captionConnections (cs : list positive) (e : ActiveClientEffect) :=
  mkEffect (m_lastActiveWindow e) (m_polledWindows e) (clock e) (timers e)
           cs (sessionBus e).

Definition set_sessionBus (b : list DBusMessage) (e : ActiveClientEffect) :=
  mkEffect (m_lastActiveWindow e) (m_polledWindows e) (clock e) (timers e)
           (captionConnections e) b.

(** ** Qt primitives *)

(** [QTimer::singleShot(msec, this, slot)]: the slot runs once, [msec]
    milliseconds from now. *)
Definition singleShot (msec : Z) (s : Slot) (e : ActiveClientEffect) :=
  set_timers (timers e ++ [mkTimer (clock e + msec) s]) e.

(** [QString::isEmpty] and [QString::startsWith]. *)
Definition isEmpty (s : QString) : bool :=
  match s with EmptyString => true | String _ _ => false end.

Definition startsWith (s pre : QString) : bool := String.prefix pre s.

(** ** The methods of the effect *)

Definition sendDBusSignal (signalName : SignalName) (cls title : QString)
    (e : ActiveClientEffect) :=
  set_sessionBus (sessionBus e ++ [mkMessage signalName cls title]) e.

Definition hasProblematicTitle (title : QString) : bool :=
  isEmpty title || startsWith title "_".

(** The delay computed in [retryActiveWindowTitle]:
    [50 * (1 << (attempt - 1))].  The line is reached with
    [1 <= attempt <= 3] only, where the [int] arithmetic is exact. *)
Definition retryDelay (attempt : Z) : Z := 50 * Z.shiftl 1 (attempt - 1).

Definition retryActiveWindowTitle (ws : Workspace) (attempt : Z)
    (e : ActiveClientEffect) : ActiveClientEffect :=
  match m_lastActiveWindow e with
  | None => e
  | Some last =>
      if negb (bool_decide (Some last = activeWindow ws)) then
        set_lastActiveWindow None
          (set_polledWindows (m_polledWindows e ∖ {[last]}) e)
      else if 3 <? attempt then
        singleShot 500 SlotPollWindowTitle e
      else
        singleShot (retryDelay attempt) (SlotRetryCheck attempt) e
  end.

(** The lambda armed by [retryActiveWindowTitle attempt]; it captures
    [this] and [attempt] and reads [m_lastActiveWindow] when it fires. *)
Definition retryCheck (ws : Workspace) (attempt : Z)
    (e : ActiveClientEffect) : ActiveClientEffect :=
  match m_lastActiveWindow e with
  | None => e
  | Some last =>
      let cls := resourceClass ws last in
      let title := caption ws last in
      if negb (hasProblematicTitle title) && negb (String.eqb title cls) then
        let e1 := sendDBusSignal Changed cls title e in
        let e2 := set_polledWindows (m_polledWindows e1 ∖ {[last]}) e1 in
        set_lastActiveWindow None e2
      else
        retryActiveWindowTitle ws (attempt + 1) e
  end.

Definition onActiveClientChanged (ws : Workspace) (e : ActiveClientEffect)
    : ActiveClientEffect :=
  match activeWindow ws with
  | None => e
  | Some window =>
      let cls := resourceClass ws window in
      let title := caption ws window in
      let e1 := sendDBusSignal Changed cls title e in
      if hasProblematicTitle title || String.eqb title cls then
        let e2 := set_lastActiveWindow (Some window) e1 in
        let e3 := set_polledWindows ({[window]} ∪ m_polledWindows e2) e2 in
        retryActiveWindowTitle ws 1 e3
      else
        set_lastActiveWindow None e1
  end.

Definition pollWindowTitle (ws : Workspace) (e : ActiveClientEffect)
    : ActiveClientEffect :=
  let active := activeWindow ws in
  (* the erase loop keeps exactly the entries equal to the active window *)
  let e1 := set_polledWindows
              (filter (fun w => Some w = active) (m_polledWindows e)) e in
  match active with
  | None => e1
  | Some window =>
      if bool_decide (window ∈ m_polledWindows e1) then
        let cls := resourceClass ws window in
        let title := caption ws window in
        if negb (hasProblematicTitle title) && negb (String.eqb title cls) then
          let e2 := sendDBusSignal Changed cls title e1 in
          set_polledWindows (m_polledWindows e2 ∖ {[window]}) e2
        else
          singleShot 500 SlotPollWindowTitle e1
      else e1
  end.

(** The lambda connected to [Window::captionChanged] in [onWindowAdded]. *)
Definition onCaptionChanged (ws : Workspace) (window : Window)
    (e : ActiveClientEffect) : ActiveClientEffect :=
  let cls := resourceClass ws window in
  let title := caption ws window in
  if bool_decide (Some window = activeWindow ws) then
    let e1 :=
      if bool_decide (window ∈ m_polledWindows e)
         && negb (hasProblematicTitle title)
      then set_polledWindows (m_polledWindows e ∖ {[window]}) e
      else e in
    sendDBusSignal Changed cls title e1
  else e.

Definition onWindowAdded (ws : Workspace) (window : option Window)
    (e : ActiveClientEffect) : ActiveClientEffect :=
  match window with
  | None => e
  | Some w =>
      let e1 := sendDBusSignal Created (resourceClass ws w) (caption ws w) e in
      set_captionConnections (captionConnections e1 ++ [w]) e1
  end.

Definition onWindowRemoved (ws : Workspace) (window : option Window)
    (e : ActiveClientEffect) : ActiveClientEffect :=
  match window with
  | None => e
  | Some w =>
      let e1 := set_polledWindows (m_polledWindows e ∖ {[w]}) e in
      let e2 := if bool_decide (m_lastActiveWindow e1 = Some w)
                then set_lastActiveWindow None e1 else e1 in
      let e3 := sendDBusSignal Destroyed (resourceClass ws w) (caption ws w) e2 in
      singleShot 0 SlotOnActiveClientChanged e3
  end.

Definition emitInitialState (ws : Workspace) (e : ActiveClientEffect)
    : ActiveClientEffect :=
  match activeWindow ws with
  | None => e
  | Some window =>
      sendDBusSignal Initial (resourceClass ws window) (caption ws window) e
  end.

(** The constructor: the three [connect] calls are the dispatch table
    below; the only state it creates is the zero-delay timer. *)
Definition construct (now : Z) : ActiveClientEffect :=
  singleShot 0 SlotEmitInitialState (mkEffect None ∅ now [] [] []).

(** ** The event loop *)

Definition runSlot (ws : Workspace) (s : Slot) (e : ActiveClientEffect)
    : ActiveClientEffect :=
  match s with
  | SlotRetryCheck attempt => retryCheck ws attempt e
  | SlotPollWindowTitle => pollWindowTitle ws e
  | SlotOnActiveClientChanged => onActiveClientChanged ws e
  | SlotEmitInitialState => emitInitialState ws e
  end.

(** The timer that expires first; among equal expiry times the one armed
    first.  Returns it with the timers that stay pending. *)
Fixpoint nextTimer (ts : list Timer) : option (Timer * list Timer) :=
  match ts with
  | [] => None
  | t :: rest =>
      match nextTimer rest with
      | None => Some (t, [])
      | Some (u, rest') =>
          if due t <=? due u then Some (t, rest) else Some (u, t :: rest')
      end
  end.

(** One timer expiry: the clock moves to the expiry time and the slot runs. *)
Definition timeout (ws : Workspace) (e : ActiveClientEffect) : ActiveClientEffect :=
  match nextTimer (timers e) with
  | None => e
  | Some (t, rest) =>
      runSlot ws (receiver t) (set_clock (Z.max (clock e) (due t)) (set_timers rest e))
  end.

(** What the event loop delivers to the effect. *)
Inductive Event :=
| WindowActivated                      (* Workspace::windowActivated *)
| WindowAdded (window : option Window) (* Workspace::windowAdded *)
| WindowRemoved (window : option Window) (* Workspace::windowRemoved *)
| CaptionChanged (window : Window)     (* Window::captionChanged *)
| Timeout.                             (* the next single-shot timer *)

(** [captionChanged] runs the lambda once per connection made for the
    emitting window. *)
Fixpoint deliverCaptionChanged (ws : Workspace) (window : Window)
    (conns : list positive) (e : ActiveClientEffect) : ActiveClientEffect :=
  match conns with
  | [] => e
  | c :: rest =>
      let e1 := if bool_decide (c = window) then onCaptionChanged ws window e else e in
      deliverCaptionChanged ws window rest e1
  end.

Definition dispatch (ws : Workspace) (ev : Event) (e : ActiveClientEffect)
    : ActiveClientEffect :=
  match ev with
  | WindowActivated => onActiveClientChanged ws e
  | WindowAdded w => onWindowAdded ws w e
  | WindowRemoved w => onWindowRemoved ws w e
  | CaptionChanged w => deliverCaptionChanged ws w (captionConnections e) e
  | Timeout => timeout ws e
  end.

(** A run: each event is delivered with the compositor state it finds. *)
Fixpoint run (trace : list (Workspace * Event)) (e : ActiveClientEffect)
    : ActiveClientEffect :=
  match trace with
  | [] => e
  | (ws, ev) :: rest => run rest (dispatch ws ev e)
  end.

(** A title still needs retrying when it is problematic or equals the class
    (the test of [onActiveClientChanged]); the retry check and the poll tick
    test the negation. *)
Definition needsRetry (ws : Workspace) (w : Window) : bool :=
  hasProblematicTitle (caption ws w) || String.eqb (caption ws w) (resourceClass ws w).

Definition usableTitle (ws : Workspace) (w : Window) : bool :=
  negb (hasProblematicTitle (caption ws w))
  && negb (String.eqb (caption ws w) (resourceClass ws w)).

(** ** Sample compositor states

    Two windows, used by the worked scenarios below: window 1 is a browser
    whose caption is set late, window 2 an editor whose caption is its
    class at first. *)
Module Sample.

Definition browser : Window := 1%positive.
Definition editor : Window := 2%positive.

Definition classOf (w : Window) : QString :=
  if bool_decide (w = browser) then "firefox" else "code".

(** The browser is active and has no caption yet. *)
Definition wsBrowserEmpty : Workspace :=
  mkWorkspace (Some browser) classOf
    (fun w => if bool_decide (w = browser) then "" else "notes.txt - code").

(** The browser is active and has its final caption. *)
Definition wsBrowserTitled : Workspace :=
  mkWorkspace (Some browser) classOf
    (fun w => if bool_decide (w = browser) then "Mozilla Firefox"
              else "notes.txt - code").

(** Nothing is active; the browser has no caption yet. *)
Definition wsNoneEmpty : Workspace :=
  mkWorkspace None classOf
    (fun w => if bool_decide (w = browser) then "" else "notes.txt - code").

(** Nothing is active; the browser has its final caption. *)
Definition wsNoneTitled : Workspace :=
  mkWorkspace None classOf
    (fun w => if bool_decide (w = browser) then "Mozilla Firefox"
              else "notes.txt - code").

(** The editor is active with a good caption; the browser has none. *)
Definition wsEditorTitled : Workspace :=
  mkWorkspace (Some editor) classOf
    (fun w => if bool_decide (w = browser) then "" else "notes.txt - code").

(** The editor is active and has no caption yet. *)
Definition wsEditorEmpty : Workspace :=
  mkWorkspace (Some editor) classOf (fun _ => "").

(** The editor is active and its caption equals its class. *)
Definition wsEditorClass : Workspace :=
  mkWorkspace (Some editor) classOf
    (fun w => if bool_decide (w = browser) then "Mozilla Firefox" else "code").

(** A freshly constructed effect whose initial-state timer has run. *)
Definition idle : ActiveClientEffect := mkEffect None ∅ 0 [] [] [].

End Sample.

(** An event that is a caption change of a window that is not active. *)
Definition backgroundCaptionChange (x : Workspace * Event) : Prop :=
  exists w, snd x = CaptionChanged w /\ activeWindow (fst x) <> Some w.

(** [n] timer expiries in a row, the compositor state staying [ws]. *)
Definition timeouts (n : nat) (ws : Workspace) (e : ActiveClientEffect)
    : ActiveClientEffect :=
  Nat.iter n (timeout ws) e.

(** The check that is pending after [n] failed checks of a retry sequence
    begun at time [t0]: three retry checks, then the poll ticks. *)
Definition checkSchedule (t0 : Z) (n : nat) : Timer :=
  match n with
  | O => mkTimer (t0 + 50) (SlotRetryCheck 1)
  | S O => mkTimer (t0 + 150) (SlotRetryCheck 2)
  | S (S O) => mkTimer (t0 + 350) (SlotRetryCheck 3)
  | S (S (S k)) => mkTimer (t0 + 850 + 500 * Z.of_nat k) SlotPollWindowTitle
  end.

(** The clock after [n] checks of that sequence have run. *)
Definition clockAfter (t0 : Z) (n : nat) : Z :=
  match n with
  | O => t0
  | S m => due (checkSchedule t0 m)
  end.

(** The effect is in a retry sequence for [w] begun at [t0]: [n] checks
    have failed, the next one is the only pending timer, [bus] is what has
    been sent, and the polled set holds [w] and at most the entries [stale]
    that were in it before. *)
Definition Waiting (w : Window) (stale : gset positive) (t0 : Z) (n : nat)
    (bus : list DBusMessage) (e : ActiveClientEffect) : Prop :=
  m_lastActiveWindow e = Some w
  /\ w ∈ m_polledWindows e
  /\ m_polledWindows e ⊆ {[w]} ∪ stale
  /\ timers e = [checkSchedule t0 n]
  /\ clock e = clockAfter t0 n
  /\ sessionBus e = bus.

(** The delays and check times as the specification words them: delays of
    50, 150 and 350 ms, hence checks 50, 200 and 550 ms after activation,
    then one every 500 ms. *)
Definition specDelay (attempt : Z) : Z :=
  if attempt =? 1 then 50 else if attempt =? 2 then 150 else 350.

Definition specCheckTime (t0 : Z) (n : nat) : Z :=
  match n with
  | O => t0 + 50
  | S O => t0 + 200
  | S (S O) => t0 + 550
  | S (S (S k)) => t0 + 550 + 500 * (Z.of_nat k + 1)
  end.

(** The invariant of the polled set as the data model words it: every
    handle in the set is the active window and its caption still needs
    retrying. *)
Definition PolledInvariant (ws : Workspace) (e : ActiveClientEffect) : Prop :=
  forall h, h ∈ m_polledWindows e ->
    activeWindow ws = Some h /\ needsRetry ws h = true.

(** How many [Changed] messages carry the given class and title. *)
Definition changedCount (cls title : QString) (bus : list DBusMessage) : nat :=
  List.length
    (List.filter
       (fun m => match member m with
                 | Changed => String.eqb (windowClass m) cls
                              && String.eqb (windowTitle m) title
                 | _ => false
                 end) bus).

(** ** Vocabulary for properties of whole runs *)

Definition SignalName_eqb (a b : SignalName) : bool :=
  match a, b with
  | Created, Created | Changed, Changed
  | Destroyed, Destroyed | Initial, Initial => true
  | _, _ => false
  end.

(** How many messages on the bus have the given member name. *)
Definition countMember (k : SignalName) (bus : list DBusMessage) : nat :=
  List.length (List.filter (fun m => SignalName_eqb (member m) k) bus).

Definition isAdded (x : Workspace * Event) : bool :=
  match snd x with WindowAdded (Some _) => true | _ => false end.

Definition isRemoved (x : Workspace * Event) : bool :=
  match snd x with WindowRemoved (Some _) => true | _ => false end.

(** How many windows a trace adds, and how many it removes. *)
Definition countAdded (trace : list (Workspace * Event)) : nat :=
  List.length (List.filter isAdded trace).

Definition countRemoved (trace : list (Workspace * Event)) : nat :=
  List.length (List.filter isRemoved trace).

Definition isInitialTimer (t : Timer) : bool :=
  match receiver t with SlotEmitInitialState => true | _ => false end.

(** How many pending timers will run [emitInitialState]. *)
Definition countInitialTimers (ts : list Timer) : nat :=
  List.length (List.filter isInitialTimer ts).

(** [after] is [before] with at most one element appended, and that
    element satisfies [ok]. *)
Definition appendsAtMostOne {A : Type} (ok : A -> Prop) (before after : list A)
    : Prop :=
  after = before \/ exists x, ok x /\ after = before ++ [x].

(** The message is signal [k] with the class and caption some window has in
    [ws]. *)
Definition windowReport (k : SignalName) (ws : Workspace) (m : DBusMessage)
    : Prop :=
  exists w, m = mkMessage k (resourceClass ws w) (caption ws w).

(** The message is [k] for the window that is active in [ws]. *)
Definition activeReport (k : SignalName) (ws : Workspace) (m : DBusMessage)
    : Prop :=
  exists w, activeWindow ws = Some w
            /\ m = mkMessage k (resourceClass ws w) (caption ws w).

(** The message is a [Changed] whose title is usable in [ws]. *)
Definition usableChanged (ws : Workspace) (m : DBusMessage) : Prop :=
  exists w, usableTitle ws w = true
            /\ m = mkMessage Changed (resourceClass ws w) (caption ws w).

(** The message reports, under some member name, what a window has in [ws]. *)
Definition currentReport (ws : Workspace) (m : DBusMessage) : Prop :=
  exists k, windowReport k ws m.

(** The timer a call of [retryActiveWindowTitle attempt] may arm at clock
    value [c]. *)
Definition armedByRetry (c attempt : Z) (t : Timer) : Prop :=
  t = mkTimer (c + 500) SlotPollWindowTitle
  \/ (attempt <= 3 /\ t = mkTimer (c + retryDelay attempt) (SlotRetryCheck attempt)).

(** The attempt number of a pending retry check is 1, 2 or 3. *)
Definition boundedAttempt (t : Timer) : Prop :=
  match receiver t with
  | SlotRetryCheck attempt => 1 <= attempt <= 3
  | _ => True
  end.

(** The timer is one the handlers arm: a retry check with attempt 1..3, a
    poll tick or a zero-delay activation; never [emitInitialState]. *)
Definition handlerTimer (t : Timer) : Prop :=
  boundedAttempt t /\ isInitialTimer t = false.

(** How many [captionChanged] connections were made for [w]. *)
Definition connectionCount (w : Window) (conns : list positive) : nat :=
  List.length (List.filter (fun c => bool_decide (c = w)) conns).

(** No event of the trace finds [w] active. *)
Definition neverActive (w : Window) (trace : list (Workspace * Event)) : Prop :=
  Forall (fun x => activeWindow (fst x) <> Some w) trace.

(** What the slot of an expiring timer may send, and which timer it may
    arm at clock value [c]. *)
Definition slotMessage (ws : Workspace) (s : Slot) (m : DBusMessage) : Prop :=
  match s with
  | SlotEmitInitialState => activeReport Initial ws m
  | SlotOnActiveClientChanged => activeReport Changed ws m
  | SlotRetryCheck _ | SlotPollWindowTitle => usableChanged ws m
  end.

Definition slotTimer (c : Z) (s : Slot) (t : Timer) : Prop :=
  match s with
  | SlotRetryCheck attempt => armedByRetry c (attempt + 1) t
  | SlotPollWindowTitle => t = mkTimer (c + 500) SlotPollWindowTitle
  | SlotOnActiveClientChanged => armedByRetry c 1 t
  | SlotEmitInitialState => False
  end.

(** The [Initial] messages sent so far plus those that pending timers can
    still send. *)
Definition initialBudget (e : ActiveClientEffect) : nat :=
  (countMember Initial (sessionBus e) + countInitialTimers (timers e))%nat.

Definition isArming (x : Workspace * Event) : bool :=
  match snd x with
  | WindowActivated | WindowRemoved (Some _) => true
  | _ => false
  end.

(** How many events of a trace are activations or removals, the only
    events whose handlers start a timer chain. *)
Definition countArming (trace : list (Workspace * Event)) : nat :=
  List.length (List.filter isArming trace).

(** ** Vocabulary for the steps of a retry chain *)

(** A retry check arms its successor exactly when a window is tracked, it
    is the active window and its caption still needs retrying. *)
Definition retryContinues (ws : Workspace) (e : ActiveClientEffect) : bool :=
  match m_lastActiveWindow e with
  | Some w => bool_decide (Some w = activeWindow ws) && needsRetry ws w
  | None => false
  end.

(** A poll tick arms the next tick exactly when the active window is in
    the polled set and its caption still needs retrying. *)
Definition pollContinues (ws : Workspace) (e : ActiveClientEffect) : bool :=
  match activeWindow ws with
  | Some a => bool_decide (a ∈ m_polledWindows e) && needsRetry ws a
  | None => false
  end.

(** The successor armed at clock value [c] by the retry check of the given
    attempt: the next retry check, or the first poll tick after the third. *)
Definition nextCheck (c attempt : Z) : Timer :=
  if 3 <? attempt + 1 then mkTimer (c + 500) SlotPollWindowTitle
  else mkTimer (c + retryDelay (attempt + 1)) (SlotRetryCheck (attempt + 1)).

(** One timer expiry per listed compositor state, and nothing else. *)
Definition expiries (wss : list Workspace) : list (Workspace * Event) :=
  List.map (fun ws => (ws, Timeout)) wss.

(** In [ws] the window is active and its caption still needs retrying. *)
Definition stillWaiting (w : Window) (ws : Workspace) : Prop :=
  activeWindow ws = Some w /\ needsRetry ws w = true.

(** The event finds no active window whose caption needs retrying. *)
Definition noRetryNeeded (x : Workspace * Event) : Prop :=
  forall w, activeWindow (fst x) = Some w -> needsRetry (fst x) w = false.

(** ** Basic facts *)

Lemma needsRetry_usableTitle ws w : needsRetry ws w = negb (usableTitle ws w).
Proof.
  unfold needsRetry, usableTitle.
  destruct (hasProblematicTitle _), (String.eqb _ _); reflexivity.
Qed.

Lemma deliverCaptionChanged_inactive ws w conns e :
  activeWindow ws <> Some w -> deliverCaptionChanged ws w conns e = e.
Proof.
  intros Hna. induction conns as [|c conns IH]; simpl; [reflexivity|].
  unfold onCaptionChanged.
  rewrite (bool_decide_eq_false_2 (Some w = activeWindow ws)) by congruence.
  destruct (bool_decide (c = w)); exact IH.
Qed.

(** The two outcomes of the activation handler for an active window. *)
Lemma onActiveClientChanged_retry ws e w :
  activeWindow ws = Some w -> needsRetry ws w = true ->
  onActiveClientChanged ws e
  = mkEffect (Some w) ({[w]} ∪ m_polledWindows e) (clock e)
      (timers e ++ [mkTimer (clock e + 50) (SlotRetryCheck 1)])
      (captionConnections e)
      (sessionBus e ++ [mkMessage Changed (resourceClass ws w) (caption ws w)]).
Proof.
  intros Hact Hneed. unfold onActiveClientChanged, needsRetry in *.
  rewrite Hact, Hneed. unfold retryActiveWindowTitle. cbn.
  rewrite Hact, bool_decide_eq_true_2 by reflexivity. reflexivity.
Qed.

Lemma onActiveClientChanged_good ws e w :
  activeWindow ws = Some w -> needsRetry ws w = false ->
  onActiveClientChanged ws e
  = mkEffect None (m_polledWindows e) (clock e) (timers e)
      (captionConnections e)
      (sessionBus e ++ [mkMessage Changed (resourceClass ws w) (caption ws w)]).
Proof.
  intros Hact Hneed. unfold onActiveClientChanged, needsRetry in *.
  now rewrite Hact, Hneed.
Qed.

Lemma not_elem_of_remove (X : gset positive) (w : positive) : w ∉ X ∖ {[w]}.
Proof.
  intros Hx. apply elem_of_difference in Hx as [_ Hn].
  apply Hn, elem_of_singleton. reflexivity.
Qed.

(** ** The title classifier *)

(** C5.  [hasProblematicTitle] is a total boolean function of the title
    alone; it answers [true] exactly when the title is the empty string or
    its first character is the underscore. *)
Theorem hasProblematicTitle_iff (title : QString) :
  hasProblematicTitle title = true <->
  title = "" \/ exists rest, title = String "_"%char rest.
Proof.
  unfold hasProblematicTitle, startsWith.
  destruct title as [|c rest]; cbn -[ascii_dec].
  - split; [now left | reflexivity].
  - destruct (ascii_dec "_" c) as [<-|Hne].
    + split; [intros _; right; now exists rest | now destruct rest].
    + split; [discriminate|].
      intros [Hempty | [rest' Heq]]; [discriminate|].
      injection Heq as Hc _. congruence.
Qed.

(** ** Activation *)

(** C2.  When the handler runs with window [w] active it sends exactly one
    [Changed] message with [w]'s current class and caption; if the caption
    is problematic or equals the class, [w] becomes the tracked window, is
    inserted in the polled set and the first retry check is armed;
    otherwise the tracked window is cleared and neither the polled set nor
    the timers change. *)
Theorem onActiveClientChanged_active ws e w :
  activeWindow ws = Some w ->
  sessionBus (onActiveClientChanged ws e)
    = sessionBus e ++ [mkMessage Changed (resourceClass ws w) (caption ws w)]
  /\ (needsRetry ws w = true ->
        m_lastActiveWindow (onActiveClientChanged ws e) = Some w
        /\ m_polledWindows (onActiveClientChanged ws e) = {[w]} ∪ m_polledWindows e
        /\ timers (onActiveClientChanged ws e)
           = timers e ++ [mkTimer (clock e + 50) (SlotRetryCheck 1)])
  /\ (needsRetry ws w = false ->
        m_lastActiveWindow (onActiveClientChanged ws e) = None
        /\ m_polledWindows (onActiveClientChanged ws e) = m_polledWindows e
        /\ timers (onActiveClientChanged ws e) = timers e)
  /\ (timers (onActiveClientChanged ws e) <> timers e <-> needsRetry ws w = true).
Proof.
  intros Hact. destruct (needsRetry ws w) eqn:Hneed.
  - rewrite (onActiveClientChanged_retry ws e w Hact Hneed). cbn.
    split; [reflexivity|]. split; [intros _; repeat split|].
    split; [discriminate|]. split; [reflexivity|].
    intros _ Heq. apply (f_equal (@List.length Timer)) in Heq.
    rewrite List.length_app in Heq. simpl in Heq. lia.
  - rewrite (onActiveClientChanged_good ws e w Hact Hneed). cbn.
    split; [reflexivity|]. split; [discriminate|].
    split; [intros _; repeat split|].
    split; [intros Hne; now contradiction Hne | discriminate].
Qed.

Lemma onActiveClientChanged_active_witness :
  activeWindow Sample.wsBrowserEmpty = Some Sample.browser
  /\ sessionBus (onActiveClientChanged Sample.wsBrowserEmpty Sample.idle)
     = [mkMessage Changed "firefox" ""].
Proof.
  split; [reflexivity|].
  exact (proj1 (onActiveClientChanged_active Sample.wsBrowserEmpty Sample.idle
                  Sample.browser eq_refl)).
Defined.

(** C10.  With no active window the activation handler returns the effect
    as it found it: nothing is sent, and the tracked window, the polled
    set and the timers are untouched. *)
Theorem onActiveClientChanged_no_window ws e :
  activeWindow ws = None -> onActiveClientChanged ws e = e.
Proof. intros Hnone. unfold onActiveClientChanged. now rewrite Hnone. Qed.

Lemma onActiveClientChanged_no_window_witness :
  activeWindow Sample.wsNoneEmpty = None
  /\ onActiveClientChanged Sample.wsNoneEmpty Sample.idle = Sample.idle.
Proof.
  split; [reflexivity|].
  exact (onActiveClientChanged_no_window Sample.wsNoneEmpty Sample.idle eq_refl).
Defined.

(** ** Destruction *)

(** C7.  Removing window [w] sends exactly one [Destroyed] message with
    the class and caption [w] has at that moment, deletes [w] from the
    polled set, clears the tracked window when it was [w], and arms a
    zero-delay timer whose slot is the activation handler; when no other
    timer is pending, the next expiry runs that handler at the same clock
    value. *)
Theorem onWindowRemoved_window ws e w :
  sessionBus (onWindowRemoved ws (Some w) e)
    = sessionBus e ++ [mkMessage Destroyed (resourceClass ws w) (caption ws w)]
  /\ m_polledWindows (onWindowRemoved ws (Some w) e) = m_polledWindows e ∖ {[w]}
  /\ (w ∉ m_polledWindows (onWindowRemoved ws (Some w) e))
  /\ m_lastActiveWindow (onWindowRemoved ws (Some w) e)
     = (if bool_decide (m_lastActiveWindow e = Some w) then None
        else m_lastActiveWindow e)
  /\ timers (onWindowRemoved ws (Some w) e)
     = timers e ++ [mkTimer (clock e + 0) SlotOnActiveClientChanged]
  /\ (forall ws', runSlot ws' SlotOnActiveClientChanged = onActiveClientChanged ws')
  /\ (forall ws', timers e = [] ->
        timeout ws' (onWindowRemoved ws (Some w) e)
        = onActiveClientChanged ws'
            (set_timers [] (onWindowRemoved ws (Some w) e))).
Proof.
  pose proof (not_elem_of_remove (m_polledWindows e) w) as Hnotin.
  unfold onWindowRemoved. simpl.
  destruct (bool_decide (m_lastActiveWindow e = Some w)) eqn:Hlast; simpl;
    (split; [reflexivity|]); (split; [reflexivity|]); (split; [exact Hnotin|]);
    (split; [reflexivity|]); (split; [reflexivity|]); (split; [reflexivity|]);
    intros ws' Hts; unfold timeout; simpl; rewrite Hts; simpl;
    unfold set_clock, set_timers; simpl;
    replace (Z.max (clock e) (clock e + 0)) with (clock e) by lia;
    reflexivity.
Qed.

(** ** Caption changes of background windows *)

(** C8.  A caption change delivered for a window that is not the active
    one leaves the whole effect unchanged, however many are delivered in a
    row: no message is sent, and since no field changes nothing is kept for
    a later activation, which therefore proceeds as if they had never
    arrived. *)
Theorem background_caption_changes_dropped trace e :
  Forall backgroundCaptionChange trace ->
  run trace e = e /\ forall later, run (trace ++ later) e = run later e.
Proof.
  intros Hall.
  assert (Hrun : run trace e = e).
  { induction Hall as [|[ws ev] rest [w [Hev Hna]] _ IH]; [reflexivity|].
    simpl in Hev, Hna. subst ev. simpl.
    rewrite deliverCaptionChanged_inactive by exact Hna. exact IH. }
  split; [exact Hrun|].
  intros later. revert e Hrun.
  induction Hall as [|[ws ev] rest [w [Hev Hna]] Hrest IH]; intros e Hrun;
    [reflexivity|].
  simpl in Hev, Hna. subst ev. simpl in *.
  rewrite deliverCaptionChanged_inactive in * by exact Hna.
  apply IH. exact Hrun.
Qed.

Lemma background_caption_changes_dropped_witness :
  Forall backgroundCaptionChange
    [(Sample.wsEditorTitled, CaptionChanged Sample.browser);
     (Sample.wsNoneTitled, CaptionChanged Sample.browser)]
  /\ run [(Sample.wsEditorTitled, CaptionChanged Sample.browser);
          (Sample.wsNoneTitled, CaptionChanged Sample.browser)]
         (onWindowAdded Sample.wsEditorTitled (Some Sample.browser) Sample.idle)
     = onWindowAdded Sample.wsEditorTitled (Some Sample.browser) Sample.idle.
Proof.
  assert (H : Forall backgroundCaptionChange
                [(Sample.wsEditorTitled, CaptionChanged Sample.browser);
                 (Sample.wsNoneTitled, CaptionChanged Sample.browser)]).
  { repeat constructor; exists Sample.browser; (split; [reflexivity|]);
      simpl; discriminate. }
  split; [exact H|].
  exact (proj1 (background_caption_changes_dropped _
                  (onWindowAdded Sample.wsEditorTitled (Some Sample.browser)
                     Sample.idle) H)).
Defined.

(** ** The retry sequence *)

Lemma retryDelay_pow2 attempt :
  1 <= attempt -> retryDelay attempt = 50 * 2 ^ (attempt - 1).
Proof.
  intros Hle. unfold retryDelay.
  rewrite Z.shiftl_mul_pow2 by lia. lia.
Qed.

Lemma usableTitle_false ws w : needsRetry ws w = true -> usableTitle ws w = false.
Proof. rewrite needsRetry_usableTitle. now destruct (usableTitle ws w). Qed.

Lemma checkSchedule_due_le t0 n : clockAfter t0 n <= due (checkSchedule t0 n).
Proof.
  destruct n as [|[|[|[|k]]]]; cbn [clockAfter checkSchedule due]; lia.
Qed.

(** Activation with a caption that needs retrying enters the sequence. *)
Lemma Waiting_start ws w e :
  activeWindow ws = Some w -> needsRetry ws w = true -> timers e = [] ->
  Waiting w (m_polledWindows e) (clock e) 0
    (sessionBus e ++ [mkMessage Changed (resourceClass ws w) (caption ws w)])
    (onActiveClientChanged ws e).
Proof.
  intros Hact Hneed Hts.
  rewrite (onActiveClientChanged_retry ws e w Hact Hneed), Hts.
  unfold Waiting. cbn. repeat split.
  - apply elem_of_union_l, elem_of_singleton. reflexivity.
  - intros x Hx. exact Hx.
Qed.

(** The guard of [retryActiveWindowTitle] passed: the next step is armed. *)
Lemma retryActiveWindowTitle_still_active ws attempt e w :
  m_lastActiveWindow e = Some w -> activeWindow ws = Some w ->
  retryActiveWindowTitle ws attempt e
  = if 3 <? attempt then singleShot 500 SlotPollWindowTitle e
    else singleShot (retryDelay attempt) (SlotRetryCheck attempt) e.
Proof.
  intros Hlast Hact. unfold retryActiveWindowTitle.
  rewrite Hlast, Hact, bool_decide_eq_true_2 by reflexivity. reflexivity.
Qed.

(** The guard failed: the tracked window is abandoned. *)
Lemma retryActiveWindowTitle_not_active ws attempt e w :
  m_lastActiveWindow e = Some w -> activeWindow ws <> Some w ->
  retryActiveWindowTitle ws attempt e
  = set_lastActiveWindow None
      (set_polledWindows (m_polledWindows e ∖ {[w]}) e).
Proof.
  intros Hlast Hact. unfold retryActiveWindowTitle.
  rewrite Hlast, bool_decide_eq_false_2 by congruence. reflexivity.
Qed.

Lemma retryCheck_unusable ws attempt e w :
  m_lastActiveWindow e = Some w -> usableTitle ws w = false ->
  retryCheck ws attempt e = retryActiveWindowTitle ws (attempt + 1) e.
Proof.
  intros Hlast Hunus. unfold retryCheck, usableTitle in *.
  now rewrite Hlast, Hunus.
Qed.

Lemma retryCheck_usable ws attempt e w :
  m_lastActiveWindow e = Some w -> usableTitle ws w = true ->
  retryCheck ws attempt e
  = mkEffect None (m_polledWindows e ∖ {[w]}) (clock e) (timers e)
      (captionConnections e)
      (sessionBus e ++ [mkMessage Changed (resourceClass ws w) (caption ws w)]).
Proof.
  intros Hlast Hus. unfold retryCheck, usableTitle in *.
  now rewrite Hlast, Hus.
Qed.

Lemma pollWindowTitle_polled_active ws e w :
  activeWindow ws = Some w -> w ∈ m_polledWindows e ->
  pollWindowTitle ws e
  = let kept := filter (fun x : positive => Some x = Some w) (m_polledWindows e) in
    if usableTitle ws w then
      mkEffect (m_lastActiveWindow e) (kept ∖ {[w]}) (clock e) (timers e)
        (captionConnections e)
        (sessionBus e ++ [mkMessage Changed (resourceClass ws w) (caption ws w)])
    else
      mkEffect (m_lastActiveWindow e) kept (clock e)
        (timers e ++ [mkTimer (clock e + 500) SlotPollWindowTitle])
        (captionConnections e) (sessionBus e).
Proof.
  intros Hact Hin. unfold pollWindowTitle, usableTitle. rewrite Hact. cbn.
  rewrite bool_decide_eq_true_2
    by (apply elem_of_filter; split; [reflexivity | exact Hin]).
  now destruct (negb _ && negb _).
Qed.

Lemma pollWindowTitle_not_polled ws e :
  (forall w, activeWindow ws = Some w -> w ∉ m_polledWindows e) ->
  pollWindowTitle ws e
  = set_polledWindows
      (filter (fun x : positive => Some x = activeWindow ws) (m_polledWindows e)) e.
Proof.
  intros Hnot. unfold pollWindowTitle.
  destruct (activeWindow ws) as [w|] eqn:Hact; [|reflexivity].
  cbn. rewrite bool_decide_eq_false_2; [reflexivity|].
  intros Hin. apply elem_of_filter in Hin as [_ Hin].
  now apply (Hnot w).
Qed.

(** A failed check arms the next one of the schedule. *)
Lemma Waiting_step ws w stale t0 n bus e :
  activeWindow ws = Some w -> needsRetry ws w = true ->
  Waiting w stale t0 n bus e -> Waiting w stale t0 (S n) bus (timeout ws e).
Proof.
  intros Hact Hneed (Hlast & Hin & Hsub & Hts & Hclk & Hbus).
  pose proof (usableTitle_false ws w Hneed) as Hunus.
  pose proof (checkSchedule_due_le t0 n) as Hle.
  unfold timeout. rewrite Hts. cbn [nextTimer].
  rewrite Hclk, Z.max_r by exact Hle.
  destruct n as [|[|[|k]]]; cbn [checkSchedule receiver due runSlot].
  1-3: rewrite (retryCheck_unusable ws _
                  (set_clock _ (set_timers [] e)) w Hlast Hunus);
       rewrite (retryActiveWindowTitle_still_active ws _
                  (set_clock _ (set_timers [] e)) w Hlast Hact);
       unfold Waiting; cbn; repeat split; try assumption; try reflexivity.
  - change (3 <? 1 + 1) with false. cbn.
    change (retryDelay (1 + 1)) with 100. change (1 + 1) with 2.
    replace (t0 + 50 + 100) with (t0 + 150) by lia. reflexivity.
  - change (3 <? 2 + 1) with false. cbn.
    change (retryDelay (2 + 1)) with 200. change (2 + 1) with 3.
    replace (t0 + 150 + 200) with (t0 + 350) by lia. reflexivity.
  - change (3 <? 3 + 1) with true. cbn.
    replace (t0 + 350 + 500) with (t0 + 850 + 500 * 0) by lia. reflexivity.
  - rewrite (pollWindowTitle_polled_active ws
             (set_clock _ (set_timers [] e)) w Hact Hin). cbn.
    rewrite Hunus. unfold Waiting. cbn. repeat split; try assumption.
    + apply elem_of_filter. split; [reflexivity | exact Hin].
    + intros x Hx. apply elem_of_filter in Hx as [_ Hx]. now apply Hsub.
    + replace (t0 + 850 + 500 * Z.of_nat k + 500)
        with (t0 + 850 + 500 * Z.of_nat (S k)) by lia.
      reflexivity.
Qed.

Lemma Waiting_timeouts ws w stale t0 bus e n :
  activeWindow ws = Some w -> needsRetry ws w = true ->
  Waiting w stale t0 0 bus e -> Waiting w stale t0 n bus (timeouts n ws e).
Proof.
  intros Hact Hneed H0. induction n as [|n IH]; [exact H0|].
  unfold timeouts in *. simpl. now apply Waiting_step.
Qed.

(** The pending check finds a usable caption: one message, no re-arming. *)
Lemma Waiting_resolved ws w stale t0 n bus e :
  activeWindow ws = Some w -> usableTitle ws w = true ->
  Waiting w stale t0 n bus e ->
  timers (timeout ws e) = []
  /\ sessionBus (timeout ws e)
     = bus ++ [mkMessage Changed (resourceClass ws w) (caption ws w)]
  /\ (w ∉ m_polledWindows (timeout ws e)).
Proof.
  intros Hact Hus (Hlast & Hin & Hsub & Hts & Hclk & Hbus).
  assert (Hnotin : forall X : gset positive, w ∉ X ∖ {[w]}).
  { intros X Hx. apply elem_of_difference in Hx as [_ Hn].
    apply Hn, elem_of_singleton. reflexivity. }
  unfold timeout. rewrite Hts. cbn [nextTimer].
  destruct n as [|[|[|k]]]; cbn [checkSchedule receiver due runSlot].
  1-3: rewrite (retryCheck_usable ws _
                  (set_clock _ (set_timers [] e)) w Hlast Hus);
       cbn; rewrite Hbus; repeat split; apply Hnotin.
  rewrite (pollWindowTitle_polled_active ws
             (set_clock _ (set_timers [] e)) w Hact Hin). cbn.
  rewrite Hus. cbn. rewrite Hbus. repeat split. apply Hnotin.
Qed.

(** The pending check finds the window no longer active, and the new
    active window is not among the stale entries: the window is dropped and
    nothing is re-armed; if its caption is still unusable nothing is sent. *)
Lemma Waiting_abandoned ws w stale t0 n bus e :
  activeWindow ws <> Some w ->
  (forall w2, activeWindow ws = Some w2 -> w2 ∉ stale) ->
  Waiting w stale t0 n bus e ->
  timers (timeout ws e) = []
  /\ (w ∉ m_polledWindows (timeout ws e))
  /\ (needsRetry ws w = true -> sessionBus (timeout ws e) = bus).
Proof.
  intros Hna Hstale (Hlast & Hin & Hsub & Hts & Hclk & Hbus).
  unfold timeout. rewrite Hts. cbn [nextTimer].
  destruct n as [|[|[|k]]]; cbn [checkSchedule receiver due runSlot].
  1-3: destruct (usableTitle ws w) eqn:Hus;
       [ rewrite (retryCheck_usable ws _
                    (set_clock _ (set_timers [] e)) w Hlast Hus); cbn;
         split; [reflexivity|]; split; [apply not_elem_of_remove|];
         intros Hneed; apply usableTitle_false in Hneed; congruence
       | rewrite (retryCheck_unusable ws _
                    (set_clock _ (set_timers [] e)) w Hlast Hus);
         rewrite (retryActiveWindowTitle_not_active ws _
                    (set_clock _ (set_timers [] e)) w Hlast Hna); cbn;
         split; [reflexivity|]; split; [apply not_elem_of_remove|];
         intros _; exact Hbus ].
  rewrite pollWindowTitle_not_polled.
  - cbn. split; [reflexivity|].
    split; [|intros _; exact Hbus].
    intros Hx. apply elem_of_filter in Hx as [Hx _]. congruence.
  - cbn. intros w2 Hw2 Hin2. apply Hsub in Hin2.
    apply elem_of_union in Hin2 as [Hin2 | Hin2].
    + apply elem_of_singleton in Hin2. subst w2. contradiction.
    + exact (Hstale w2 Hw2 Hin2).
Qed.

(** The window is destroyed while its check is pending and nothing is
    active afterwards: the zero-delay activation and the pending check both
    run without sending or re-arming anything. *)
Lemma Waiting_destroyed ws w stale t0 n bus e :
  activeWindow ws = None ->
  Waiting w stale t0 n bus e ->
  timers (timeouts 2 ws (onWindowRemoved ws (Some w) e)) = []
  /\ sessionBus (timeouts 2 ws (onWindowRemoved ws (Some w) e))
     = bus ++ [mkMessage Destroyed (resourceClass ws w) (caption ws w)]
  /\ m_lastActiveWindow (timeouts 2 ws (onWindowRemoved ws (Some w) e)) = None
  /\ (w ∉ m_polledWindows (timeouts 2 ws (onWindowRemoved ws (Some w) e))).
Proof.
  intros Hnone (Hlast & Hin & Hsub & Hts & Hclk & Hbus).
  assert (Hrm : onWindowRemoved ws (Some w) e
                = mkEffect None (m_polledWindows e ∖ {[w]}) (clock e)
                    [checkSchedule t0 n;
                     mkTimer (clock e + 0) SlotOnActiveClientChanged]
                    (captionConnections e)
                    (bus ++ [mkMessage Destroyed (resourceClass ws w)
                               (caption ws w)])).
  { unfold onWindowRemoved. cbn. rewrite Hlast.
    rewrite bool_decide_eq_true_2 by reflexivity.
    unfold singleShot, sendDBusSignal. cbn. now rewrite Hts, Hbus. }
  assert (Hfirst : timeout ws (onWindowRemoved ws (Some w) e)
                   = mkEffect None (m_polledWindows e ∖ {[w]}) (clock e)
                       [checkSchedule t0 n] (captionConnections e)
                       (bus ++ [mkMessage Destroyed (resourceClass ws w)
                                  (caption ws w)])).
  { rewrite Hrm. unfold timeout. cbn [timers nextTimer due].
    replace (due (checkSchedule t0 n) <=? clock e + 0) with false.
    2:{ symmetry. apply Z.leb_gt. rewrite Hclk.
        destruct n as [|[|[|[|k]]]]; cbn [clockAfter checkSchedule due]; lia. }
    cbn [receiver runSlot]. unfold onActiveClientChanged. rewrite Hnone.
    unfold set_clock, set_timers. cbn.
    replace (Z.max (clock e) (clock e + 0)) with (clock e) by lia.
    reflexivity. }
  assert (Hnotin : w ∉ m_polledWindows e ∖ {[w]}).
  { intros Hx. apply elem_of_difference in Hx as [_ Hn].
    apply Hn, elem_of_singleton. reflexivity. }
  change (timeouts 2 ws (onWindowRemoved ws (Some w) e))
    with (timeout ws (timeout ws (onWindowRemoved ws (Some w) e))).
  rewrite Hfirst.
  unfold timeout. cbn [timers nextTimer].
  destruct n as [|[|[|k]]]; cbn [checkSchedule receiver due runSlot].
  1-3: unfold retryCheck; cbn; repeat split; exact Hnotin.
  unfold pollWindowTitle. rewrite Hnone. cbn. repeat split.
  intros Hx. apply elem_of_filter in Hx as [Hx _]. discriminate.
Qed.

(** The timers a retry check and a poll tick leave, for every state. *)
Lemma retryCheck_timers_exact ws attempt e :
  timers (retryCheck ws attempt e)
  = if retryContinues ws e
    then timers e ++ [nextCheck (clock e) attempt] else timers e.
Proof.
  unfold retryCheck, retryContinues.
  destruct (m_lastActiveWindow e) as [w|] eqn:Hlast; [|reflexivity].
  rewrite needsRetry_usableTitle. unfold usableTitle.
  destruct (negb (hasProblematicTitle (caption ws w))
            && negb (String.eqb (caption ws w) (resourceClass ws w))).
  - cbn. now rewrite andb_false_r.
  - unfold retryActiveWindowTitle. rewrite Hlast.
    destruct (bool_decide (Some w = activeWindow ws)); cbn; [|reflexivity].
    unfold nextCheck. now destruct (3 <? attempt + 1).
Qed.

Lemma pollWindowTitle_timers_exact ws e :
  timers (pollWindowTitle ws e)
  = if pollContinues ws e
    then timers e ++ [mkTimer (clock e + 500) SlotPollWindowTitle]
    else timers e.
Proof.
  unfold pollWindowTitle, pollContinues.
  destruct (activeWindow ws) as [a|]; [|reflexivity].
  cbn [m_polledWindows set_polledWindows].
  rewrite (bool_decide_ext
             (a ∈ filter (fun x : positive => Some x = Some a) (m_polledWindows e))
             (a ∈ m_polledWindows e)).
  2:{ rewrite elem_of_filter. split; [now intros [_ H] | now split]. }
  destruct (bool_decide (a ∈ m_polledWindows e)); [|reflexivity].
  rewrite needsRetry_usableTitle. unfold usableTitle.
  now destruct (negb (hasProblematicTitle (caption ws a))
                && negb (String.eqb (caption ws a) (resourceClass ws a))).
Qed.

(** After the removal handler has run for a window, neither a retry check
    (if that window was the tracked one) nor a poll tick for it continues. *)
Lemma removed_window_stops ws1 ws2 x e :
  (m_lastActiveWindow e = Some x ->
   retryContinues ws2 (onWindowRemoved ws1 (Some x) e) = false)
  /\ (activeWindow ws2 = Some x ->
      pollContinues ws2 (onWindowRemoved ws1 (Some x) e) = false).
Proof.
  split.
  - intros Hlast. unfold retryContinues, onWindowRemoved. cbn.
    now rewrite Hlast, bool_decide_eq_true_2.
  - intros Hact. unfold pollContinues. rewrite Hact.
    rewrite bool_decide_eq_false_2; [reflexivity|].
    unfold onWindowRemoved. cbn.
    destruct (bool_decide (m_lastActiveWindow e = Some x)); cbn;
      apply not_elem_of_remove.
Qed.

(** Failed checks in a row, each with its own compositor state. *)
Lemma Waiting_expiries w stale t0 bus wss :
  Forall (stillWaiting w) wss ->
  forall n e,
    Waiting w stale t0 n bus e ->
    Waiting w stale t0 (n + List.length wss) bus (run (expiries wss) e).
Proof.
  induction 1 as [|ws wss [Hact Hneed] _ IH]; intros n e Hw.
  - simpl. now rewrite Nat.add_0_r.
  - simpl. replace (n + S (List.length wss))%nat
      with (S n + List.length wss)%nat by lia.
    apply IH. now apply Waiting_step.
Qed.

(** C1 (as the code has it).  For a window activated with a caption that is
    problematic or equals its class:
    - the delays of the three quick checks are 50, 100 and 200 ms, that is
      [50 * 2^(attempt-1)];
    - the activation arms the first quick check 50 ms later, next to
      whatever timers are pending;
    - in every state, a quick check arms its successor (the next quick
      check 100 or 200 ms later, or after the third the first poll tick
      500 ms later) exactly when the window tracked at that moment is the
      active window and its caption is still unusable, and a poll tick arms
      the next tick 500 ms later exactly when the active window is in the
      polled set and its caption is still unusable; neither continues for a
      window whose removal handler has run;
    - when no other timer is pending at the activation and only timer
      expiries are delivered, each finding the window active with an
      unusable caption, the checks run 50, 150 and 350 ms after activation
      and then every 500 ms (850, 1350, ...), each being the only pending
      timer and none sending anything; whichever check is pending then, it
      ends the sequence without re-arming when it finds a usable caption
      (sending one [Changed]), when the window is no longer active (sending
      nothing if the caption is still unusable), or after the window was
      destroyed. *)
Theorem retry_schedule ws w e :
  activeWindow ws = Some w -> needsRetry ws w = true ->
  (retryDelay 1 = 50 /\ retryDelay 2 = 100 /\ retryDelay 3 = 200
   /\ forall attempt, 1 <= attempt <= 3 ->
        retryDelay attempt = 50 * 2 ^ (attempt - 1))
  /\ timers (onActiveClientChanged ws e)
     = timers e ++ [mkTimer (clock e + 50) (SlotRetryCheck 1)]
  /\ (forall c,
        nextCheck c 1 = mkTimer (c + 100) (SlotRetryCheck 2)
        /\ nextCheck c 2 = mkTimer (c + 200) (SlotRetryCheck 3)
        /\ nextCheck c 3 = mkTimer (c + 500) SlotPollWindowTitle)
  /\ (forall ws' e' attempt,
        timers (retryCheck ws' attempt e')
        = if retryContinues ws' e'
          then timers e' ++ [nextCheck (clock e') attempt] else timers e')
  /\ (forall ws' e',
        timers (pollWindowTitle ws' e')
        = if pollContinues ws' e'
          then timers e' ++ [mkTimer (clock e' + 500) SlotPollWindowTitle]
          else timers e')
  /\ (forall ws1 ws2 x e',
        (m_lastActiveWindow e' = Some x ->
         retryContinues ws2 (onWindowRemoved ws1 (Some x) e') = false)
        /\ (activeWindow ws2 = Some x ->
            pollContinues ws2 (onWindowRemoved ws1 (Some x) e') = false))
  /\ (timers e = [] ->
      forall wss, Forall (stillWaiting w) wss ->
       let n := List.length wss in
       let e_n := run (expiries wss) (onActiveClientChanged ws e) in
       timers e_n = [checkSchedule (clock e) n]
       /\ clock e_n = clockAfter (clock e) n
       /\ sessionBus e_n
          = sessionBus e ++ [mkMessage Changed (resourceClass ws w) (caption ws w)]
       /\ (forall ws',
             activeWindow ws' = Some w -> usableTitle ws' w = true ->
             timers (timeout ws' e_n) = []
             /\ sessionBus (timeout ws' e_n)
                = sessionBus e_n
                  ++ [mkMessage Changed (resourceClass ws' w) (caption ws' w)])
       /\ (forall ws',
             activeWindow ws' <> Some w ->
             (forall w2, activeWindow ws' = Some w2 -> w2 ∉ m_polledWindows e) ->
             timers (timeout ws' e_n) = []
             /\ (needsRetry ws' w = true ->
                 sessionBus (timeout ws' e_n) = sessionBus e_n))
       /\ (forall ws',
             activeWindow ws' = None ->
             timers (timeouts 2 ws' (onWindowRemoved ws' (Some w) e_n)) = []
             /\ sessionBus (timeouts 2 ws' (onWindowRemoved ws' (Some w) e_n))
                = sessionBus e_n
                  ++ [mkMessage Destroyed (resourceClass ws' w) (caption ws' w)])).
Proof.
  intros Hact Hneed. split.
  { repeat split; try reflexivity.
    intros attempt [Hlo _]. now apply retryDelay_pow2. }
  split.
  { now rewrite (onActiveClientChanged_retry ws e w Hact Hneed). }
  split.
  { intros c. repeat split. }
  split; [intros ws' e' attempt; apply retryCheck_timers_exact|].
  split; [intros ws' e'; apply pollWindowTitle_timers_exact|].
  split; [intros ws1 ws2 x e'; apply removed_window_stops|].
  intros Hts wss Hall n e_n.
  pose proof (Waiting_expiries w _ _ _ wss Hall 0%nat _
                (Waiting_start ws w e Hact Hneed Hts)) as Hw.
  cbn [Nat.add] in Hw. fold n e_n in Hw.
  destruct Hw as (Hlast & Hin & Hsub & Htimers & Hclk & Hbus).
  assert (Hw : Waiting w (m_polledWindows e) (clock e) n (sessionBus e_n) e_n)
    by (unfold Waiting; repeat split; assumption).
  split; [exact Htimers|]. split; [exact Hclk|]. split; [exact Hbus|].
  split; [|split].
  - intros ws' Hact' Hus.
    destruct (Waiting_resolved ws' w _ _ _ _ _ Hact' Hus Hw) as (H1 & H2 & _).
    now split.
  - intros ws' Hna Hstale.
    destruct (Waiting_abandoned ws' w _ _ _ _ _ Hna Hstale Hw)
      as (H1 & _ & H2).
    now split.
  - intros ws' Hnone.
    destruct (Waiting_destroyed ws' w _ _ _ _ _ Hnone Hw) as (H1 & H2 & _).
    now split.
Qed.

Lemma retry_schedule_witness :
  activeWindow Sample.wsBrowserEmpty = Some Sample.browser
  /\ needsRetry Sample.wsBrowserEmpty Sample.browser = true
  /\ timers (run (expiries [Sample.wsBrowserEmpty; Sample.wsBrowserEmpty;
                            Sample.wsBrowserEmpty; Sample.wsBrowserEmpty;
                            Sample.wsBrowserEmpty])
               (onActiveClientChanged Sample.wsBrowserEmpty Sample.idle))
     = [mkTimer 1850 SlotPollWindowTitle].
Proof.
  split; [reflexivity|]. split; [reflexivity|].
  assert (H : Forall (stillWaiting Sample.browser)
                [Sample.wsBrowserEmpty; Sample.wsBrowserEmpty;
                 Sample.wsBrowserEmpty; Sample.wsBrowserEmpty;
                 Sample.wsBrowserEmpty])
    by (repeat constructor).
  exact (proj1 (proj2 (proj2 (proj2 (proj2 (proj2 (proj2
           (retry_schedule Sample.wsBrowserEmpty Sample.browser Sample.idle
              eq_refl eq_refl)))))) eq_refl _ H)).
Defined.

(** C1 (as worded) fails: the second and third delays are 100 and 200 ms,
    not 150 and 350 ms, and with the browser window activated at time 0
    without a caption the second and third checks run at 150 and 350 ms,
    not at 200 and 550 ms. *)
Lemma retry_schedule_counterexample :
  retryDelay 2 = 100 /\ retryDelay 2 <> specDelay 2
  /\ retryDelay 3 = 200 /\ retryDelay 3 <> specDelay 3
  /\ clock (timeouts 2 Sample.wsBrowserEmpty
              (onActiveClientChanged Sample.wsBrowserEmpty Sample.idle)) = 150
  /\ clock (timeouts 2 Sample.wsBrowserEmpty
              (onActiveClientChanged Sample.wsBrowserEmpty Sample.idle))
     <> specCheckTime 0 1
  /\ clock (timeouts 3 Sample.wsBrowserEmpty
              (onActiveClientChanged Sample.wsBrowserEmpty Sample.idle)) = 350
  /\ clock (timeouts 3 Sample.wsBrowserEmpty
              (onActiveClientChanged Sample.wsBrowserEmpty Sample.idle))
     <> specCheckTime 0 2.
Proof.
  repeat split; try (vm_compute; reflexivity); vm_compute; discriminate.
Qed.

(** ** The polled set *)

Lemma pollWindowTitle_invariant ws e : PolledInvariant ws (pollWindowTitle ws e).
Proof.
  intros h Hh. unfold pollWindowTitle in Hh.
  destruct (activeWindow ws) as [w|] eqn:Hact; cbn in Hh.
  2:{ apply elem_of_filter in Hh as [Hh _]. discriminate. }
  destruct (bool_decide (w ∈ filter (fun x : positive => Some x = Some w)
                               (m_polledWindows e))) eqn:Hmem; cbn in Hh.
  - destruct (negb (hasProblematicTitle (caption ws w))
              && negb (String.eqb (caption ws w) (resourceClass ws w)))
      eqn:Hus; cbn in Hh.
    + apply elem_of_difference in Hh as [Hh Hne].
      apply elem_of_filter in Hh as [Hh _]. injection Hh as ->.
      exfalso. apply Hne, elem_of_singleton. reflexivity.
    + apply elem_of_filter in Hh as [Hh _]. injection Hh as ->.
      split; [reflexivity|].
      rewrite needsRetry_usableTitle. unfold usableTitle. now rewrite Hus.
  - apply bool_decide_eq_false_1 in Hmem.
    exfalso. apply Hmem.
    apply elem_of_filter in Hh as [Hh Hin]. injection Hh as ->.
    apply elem_of_filter. now split.
Qed.

Lemma retryActiveWindowTitle_polled ws attempt e h :
  h ∈ m_polledWindows (retryActiveWindowTitle ws attempt e) ->
  h ∈ m_polledWindows e.
Proof.
  unfold retryActiveWindowTitle.
  destruct (m_lastActiveWindow e) as [last|]; [|tauto].
  destruct (negb (bool_decide (Some last = activeWindow ws))); cbn.
  - intros Hh. now apply elem_of_difference in Hh as [Hh _].
  - destruct (3 <? attempt); cbn; tauto.
Qed.

Lemma retryCheck_polled ws attempt e h :
  h ∈ m_polledWindows (retryCheck ws attempt e) -> h ∈ m_polledWindows e.
Proof.
  unfold retryCheck.
  destruct (m_lastActiveWindow e) as [last|]; [|tauto].
  destruct (negb (hasProblematicTitle (caption ws last))
            && negb (String.eqb (caption ws last) (resourceClass ws last))); cbn.
  - intros Hh. now apply elem_of_difference in Hh as [Hh _].
  - apply retryActiveWindowTitle_polled.
Qed.

Lemma pollWindowTitle_polled ws e h :
  h ∈ m_polledWindows (pollWindowTitle ws e) -> h ∈ m_polledWindows e.
Proof.
  unfold pollWindowTitle.
  destruct (activeWindow ws) as [w|]; cbn.
  2:{ intros Hh. now apply elem_of_filter in Hh as [_ Hh]. }
  destruct (bool_decide _); cbn.
  2:{ intros Hh. now apply elem_of_filter in Hh as [_ Hh]. }
  destruct (negb _ && negb _); cbn; intros Hh.
  - apply elem_of_difference in Hh as [Hh _].
    now apply elem_of_filter in Hh as [_ Hh].
  - now apply elem_of_filter in Hh as [_ Hh].
Qed.

Lemma onActiveClientChanged_polled ws e h :
  h ∈ m_polledWindows (onActiveClientChanged ws e) ->
  h ∈ m_polledWindows e \/ (activeWindow ws = Some h /\ needsRetry ws h = true).
Proof.
  unfold onActiveClientChanged, needsRetry.
  destruct (activeWindow ws) as [w|] eqn:Hact; [|now left].
  destruct (hasProblematicTitle (caption ws w)
            || String.eqb (caption ws w) (resourceClass ws w)) eqn:Hneed;
    cbv beta iota zeta.
  - intros Hh. apply retryActiveWindowTitle_polled in Hh. cbn in Hh.
    apply elem_of_union in Hh as [Hh | Hh]; [|now left].
    apply elem_of_singleton in Hh. subst h. now right.
  - now left.
Qed.

Lemma onCaptionChanged_polled ws w e h :
  h ∈ m_polledWindows (onCaptionChanged ws w e) -> h ∈ m_polledWindows e.
Proof.
  unfold onCaptionChanged.
  destruct (bool_decide (Some w = activeWindow ws)); [|tauto].
  destruct (bool_decide (w ∈ m_polledWindows e)
            && negb (hasProblematicTitle (caption ws w))); cbn; [|tauto].
  intros Hh. now apply elem_of_difference in Hh as [Hh _].
Qed.

Lemma deliverCaptionChanged_polled ws w conns e h :
  h ∈ m_polledWindows (deliverCaptionChanged ws w conns e) ->
  h ∈ m_polledWindows e.
Proof.
  revert e. induction conns as [|c conns IH]; intros e; cbn; [tauto|].
  intros Hh. apply IH in Hh.
  destruct (bool_decide (c = w)); [|exact Hh].
  now apply onCaptionChanged_polled in Hh.
Qed.

Lemma dispatch_polled ws ev e h :
  h ∈ m_polledWindows (dispatch ws ev e) ->
  h ∈ m_polledWindows e \/ (activeWindow ws = Some h /\ needsRetry ws h = true).
Proof.
  destruct ev as [|w|w|w|]; cbn.
  - apply onActiveClientChanged_polled.
  - destruct w; cbn; now left.
  - destruct w as [w|]; cbn; [|now left].
    destruct (bool_decide _); cbn; intros Hh;
      apply elem_of_difference in Hh as [Hh _]; now left.
  - intros Hh. left. now apply deliverCaptionChanged_polled in Hh.
  - unfold timeout. destruct (nextTimer (timers e)) as [[t rest]|]; [|now left].
    destruct (receiver t); cbn.
    + intros Hh. left. now apply retryCheck_polled in Hh.
    + intros Hh. left. now apply pollWindowTitle_polled in Hh.
    + intros Hh. now apply onActiveClientChanged_polled in Hh.
    + unfold emitInitialState. destruct (activeWindow ws); cbn; now left.
Qed.

(** C6 (as the code has it).  A handle enters the polled set only as the
    active window with a caption that needs retrying.  It leaves the set at
    once when its window is destroyed; a handle that stopped being active
    or whose caption became usable leaves it at the next slow-poll tick,
    after which every remaining handle is the active window with a caption
    that still needs retrying; the tracked window also leaves it when the
    retry step finds it no longer active or the retry check finds its
    caption usable. *)
Theorem polled_set_cleanup ws e :
  PolledInvariant ws (pollWindowTitle ws e)
  /\ (forall w, w ∉ m_polledWindows (onWindowRemoved ws (Some w) e))
  /\ (forall w attempt,
        m_lastActiveWindow e = Some w -> activeWindow ws <> Some w ->
        w ∉ m_polledWindows (retryActiveWindowTitle ws attempt e))
  /\ (forall w attempt,
        m_lastActiveWindow e = Some w -> usableTitle ws w = true ->
        w ∉ m_polledWindows (retryCheck ws attempt e))
  /\ (forall ev h,
        h ∈ m_polledWindows (dispatch ws ev e) ->
        h ∈ m_polledWindows e
        \/ (activeWindow ws = Some h /\ needsRetry ws h = true)).
Proof.
  split; [apply pollWindowTitle_invariant|].
  split.
  { intros w. unfold onWindowRemoved. cbn.
    destruct (bool_decide (m_lastActiveWindow e = Some w)); cbn;
      apply not_elem_of_remove. }
  split.
  { intros w attempt Hlast Hna.
    rewrite (retryActiveWindowTitle_not_active ws attempt e w Hlast Hna).
    apply not_elem_of_remove. }
  split.
  { intros w attempt Hlast Hus.
    rewrite (retryCheck_usable ws attempt e w Hlast Hus).
    apply not_elem_of_remove. }
  intros ev h. apply dispatch_polled.
Qed.

(** C6 (as worded) fails: the browser is activated without a caption and
    enters the polled set; then the editor, whose caption is good, is
    activated.  After that event the browser is still in the polled set
    although it is not the active window.  Likewise the browser stays in
    the set after an unrelated event that finds its caption already
    usable. *)
Lemma polled_invariant_counterexample :
  ~ PolledInvariant Sample.wsEditorTitled
      (run [(Sample.wsBrowserEmpty, WindowActivated);
            (Sample.wsEditorTitled, WindowActivated)] Sample.idle)
  /\ ~ PolledInvariant Sample.wsBrowserTitled
        (run [(Sample.wsBrowserEmpty, WindowActivated);
              (Sample.wsBrowserTitled, WindowAdded (Some Sample.editor))]
           Sample.idle).
Proof.
  split; intros Hinv.
  - destruct (Hinv Sample.browser) as [Hact _]; [|discriminate Hact].
    apply (bool_decide_unpack _). vm_compute. exact I.
  - destruct (Hinv Sample.browser) as [_ Hneed]; [|discriminate Hneed].
    apply (bool_decide_unpack _). vm_compute. exact I.
Qed.

(** ** Caption changes of the active window *)

(** What the [captionChanged] lambda does to a polled, active window: it is
    removed exactly when the new caption is not problematic; the class is
    not compared. *)
Lemma onCaptionChanged_active_polled ws w e :
  activeWindow ws = Some w -> w ∈ m_polledWindows e ->
  (w ∉ m_polledWindows (onCaptionChanged ws w e)
   <-> hasProblematicTitle (caption ws w) = false)
  /\ sessionBus (onCaptionChanged ws w e)
     = sessionBus e ++ [mkMessage Changed (resourceClass ws w) (caption ws w)]
  /\ m_lastActiveWindow (onCaptionChanged ws w e) = m_lastActiveWindow e
  /\ timers (onCaptionChanged ws w e) = timers e.
Proof.
  intros Hact Hin. unfold onCaptionChanged.
  rewrite Hact, bool_decide_eq_true_2 by reflexivity.
  rewrite bool_decide_eq_true_2 by exact Hin.
  destruct (hasProblematicTitle (caption ws w)); cbn.
  - repeat split; try discriminate. intros Hn. now contradiction Hn.
  - repeat split. intros _. apply not_elem_of_remove.
Qed.

(** C3.  The code at the failing input: the editor is created and
    activated without a caption, so it is polled; its caption then changes
    to its class, "code".  That caption is not usable, yet the lambda
    removes the editor from the polled set. *)
Theorem caption_equal_to_class_unpolled :
  Sample.editor ∈ m_polledWindows
      (run [(Sample.wsEditorEmpty, WindowAdded (Some Sample.editor));
            (Sample.wsEditorEmpty, WindowActivated)] Sample.idle)
  /\ activeWindow Sample.wsEditorClass = Some Sample.editor
  /\ caption Sample.wsEditorClass Sample.editor
     = resourceClass Sample.wsEditorClass Sample.editor
  /\ usableTitle Sample.wsEditorClass Sample.editor = false
  /\ m_polledWindows
       (run [(Sample.wsEditorEmpty, WindowAdded (Some Sample.editor));
             (Sample.wsEditorEmpty, WindowActivated);
             (Sample.wsEditorClass, CaptionChanged Sample.editor)] Sample.idle)
     = ∅.
Proof.
  split; [apply (bool_decide_unpack _); vm_compute; exact I|].
  repeat split; vm_compute; reflexivity.
Qed.

(** ** Resolution *)

(** In general: when the tracked, polled, active window gets a usable
    caption, the [captionChanged] lambda and the next retry check each send
    the same [Changed]. *)
Lemma caption_then_retryCheck ws w attempt e :
  m_lastActiveWindow e = Some w -> activeWindow ws = Some w ->
  w ∈ m_polledWindows e -> usableTitle ws w = true ->
  sessionBus (retryCheck ws attempt (onCaptionChanged ws w e))
  = sessionBus e
    ++ [mkMessage Changed (resourceClass ws w) (caption ws w);
        mkMessage Changed (resourceClass ws w) (caption ws w)].
Proof.
  intros Hlast Hact Hin Hus.
  destruct (onCaptionChanged_active_polled ws w e Hact Hin)
    as (_ & Hbus & Hlast' & _).
  rewrite Hlast in Hlast'.
  rewrite (retryCheck_usable ws attempt _ w Hlast' Hus). cbn.
  rewrite Hbus, <- List.app_assoc. reflexivity.
Qed.

(** C4.  The code at the failing input: the browser is created and
    activated without a caption; before the first retry check its caption
    becomes "Mozilla Firefox".  The lambda sends [Changed] and removes the
    browser from the polled set, but the tracked window stays set, and the
    retry check at 50 ms sends the same [Changed] a second time. *)
Theorem resolution_reported_twice :
  m_polledWindows
    (run [(Sample.wsBrowserEmpty, WindowAdded (Some Sample.browser));
          (Sample.wsBrowserEmpty, WindowActivated);
          (Sample.wsBrowserTitled, CaptionChanged Sample.browser)] Sample.idle)
  = ∅
  /\ m_lastActiveWindow
      (run [(Sample.wsBrowserEmpty, WindowAdded (Some Sample.browser));
            (Sample.wsBrowserEmpty, WindowActivated);
            (Sample.wsBrowserTitled, CaptionChanged Sample.browser)] Sample.idle)
     = Some Sample.browser
  /\ sessionBus
      (run [(Sample.wsBrowserEmpty, WindowAdded (Some Sample.browser));
            (Sample.wsBrowserEmpty, WindowActivated);
            (Sample.wsBrowserTitled, CaptionChanged Sample.browser);
            (Sample.wsBrowserTitled, Timeout)] Sample.idle)
     = [mkMessage Created "firefox" "";
        mkMessage Changed "firefox" "";
        mkMessage Changed "firefox" "Mozilla Firefox";
        mkMessage Changed "firefox" "Mozilla Firefox"]
  /\ changedCount "firefox" "Mozilla Firefox"
       (sessionBus
          (run [(Sample.wsBrowserEmpty, WindowAdded (Some Sample.browser));
                (Sample.wsBrowserEmpty, WindowActivated);
                (Sample.wsBrowserTitled, CaptionChanged Sample.browser);
                (Sample.wsBrowserTitled, Timeout)] Sample.idle))
     = 2%nat.
Proof.
  repeat split; vm_compute; reflexivity.
Qed.

(** ** Abandonment *)

(** A retry check whose window is no longer active and whose caption is
    still unusable drops the window and sends nothing. *)
Lemma retryCheck_inactive_unusable ws attempt e w :
  m_lastActiveWindow e = Some w -> activeWindow ws <> Some w ->
  usableTitle ws w = false ->
  retryCheck ws attempt e
  = set_lastActiveWindow None
      (set_polledWindows (m_polledWindows e ∖ {[w]}) e).
Proof.
  intros Hlast Hna Hunus.
  rewrite (retryCheck_unusable ws attempt e w Hlast Hunus).
  now apply retryActiveWindowTitle_not_active.
Qed.

(** The same check when the caption has become usable: the lambda does not
    look at the active window and sends [Changed]. *)
Lemma retryCheck_inactive_usable ws attempt e w :
  m_lastActiveWindow e = Some w -> activeWindow ws <> Some w ->
  usableTitle ws w = true ->
  sessionBus (retryCheck ws attempt e)
  = sessionBus e ++ [mkMessage Changed (resourceClass ws w) (caption ws w)].
Proof.
  intros Hlast _ Hus.
  now rewrite (retryCheck_usable ws attempt e w Hlast Hus).
Qed.

(** C9.  The code at the failing input: the browser is activated without a
    caption; then no window is active (the activation handler runs and
    changes nothing); the browser's caption becomes "Mozilla Firefox".
    When the retry check fires at 50 ms the browser is not the active
    window, yet the check sends [Changed] for it. *)
Theorem retry_check_reports_inactive_window :
  activeWindow Sample.wsNoneTitled = None
  /\ m_lastActiveWindow
       (run [(Sample.wsBrowserEmpty, WindowActivated);
             (Sample.wsNoneEmpty, WindowActivated)] Sample.idle)
     = Some Sample.browser
  /\ sessionBus
       (run [(Sample.wsBrowserEmpty, WindowActivated);
             (Sample.wsNoneEmpty, WindowActivated)] Sample.idle)
     = [mkMessage Changed "firefox" ""]
  /\ sessionBus
       (run [(Sample.wsBrowserEmpty, WindowActivated);
             (Sample.wsNoneEmpty, WindowActivated);
             (Sample.wsNoneTitled, Timeout)] Sample.idle)
     = [mkMessage Changed "firefox" "";
        mkMessage Changed "firefox" "Mozilla Firefox"].
Proof.
  repeat split; vm_compute; reflexivity.
Qed.

(** * Further properties of the effect *)

(** ** The timer queue *)

Lemma nextTimer_filter_length (f : Timer -> bool) ts t rest :
  nextTimer ts = Some (t, rest) ->
  List.length (List.filter f ts) = List.length (List.filter f (t :: rest)).
Proof.
  revert t rest. induction ts as [|x ts IH]; intros t rest; simpl; [discriminate|].
  destruct (nextTimer ts) as [[u rest']|] eqn:Hnext.
  - destruct (due x <=? due u); intros [= <- <-]; [reflexivity|].
    specialize (IH u rest' eq_refl). simpl in *.
    destruct (f x), (f u); simpl in *; lia.
  - intros [= <- <-]. destruct ts; [reflexivity | simpl in Hnext].
    destruct (nextTimer ts) as [[? ?]|]; [destruct (_ <=? _)|]; discriminate.
Qed.

Lemma nextTimer_length ts t rest :
  nextTimer ts = Some (t, rest) -> List.length ts = S (List.length rest).
Proof.
  intros Hnext.
  pose proof (nextTimer_filter_length (fun _ => true) ts t rest Hnext) as H.
  simpl in H.
  rewrite !(List.forallb_filter_id (fun _ => true)) in H; [exact H| |];
    now apply List.forallb_forall.
Qed.

Lemma nextTimer_Forall (P : Timer -> Prop) ts t rest :
  nextTimer ts = Some (t, rest) -> Forall P ts -> P t /\ Forall P rest.
Proof.
  revert t rest. induction ts as [|x ts IH]; intros t rest; simpl; [discriminate|].
  intros Hnext Hall. inversion Hall as [|? ? Hx Hts]; subst.
  destruct (nextTimer ts) as [[u rest']|] eqn:Hn.
  - destruct (due x <=? due u); injection Hnext as <- <-; [now split|].
    destruct (IH u rest' eq_refl Hts) as [Hu Hrest]. split; [exact Hu|].
    now constructor.
  - injection Hnext as <- <-. split; [exact Hx | constructor].
Qed.

Lemma nextTimer_none ts : nextTimer ts = None -> ts = [].
Proof.
  destruct ts as [|x ts]; [reflexivity|]. simpl.
  destruct (nextTimer ts) as [[u rest']|]; [destruct (_ <=? _)|]; discriminate.
Qed.

(** ** What each handler may append to the bus and to the timers *)

Ltac frame_simpl :=
  cbn [sessionBus timers clock m_lastActiveWindow m_polledWindows
       captionConnections sendDBusSignal singleShot set_sessionBus set_timers
       set_lastActiveWindow set_polledWindows set_clock
       set_captionConnections].

Ltac handler_cases :=
  repeat match goal with
         | |- context [match ?x with _ => _ end] => destruct x eqn:?
         end;
  frame_simpl.

Lemma appendsAtMostOne_impl {A : Type} (ok ok' : A -> Prop) before after :
  (forall x, ok x -> ok' x) ->
  appendsAtMostOne ok before after -> appendsAtMostOne ok' before after.
Proof.
  intros Himp [-> | (x & Hx & ->)]; [now left|].
  right. exists x. split; [now apply Himp | reflexivity].
Qed.

Lemma appendsAtMostOne_list {A : Type} (ok : A -> Prop) before after :
  appendsAtMostOne ok before after ->
  exists l, after = before ++ l /\ (List.length l <= 1)%nat /\ Forall ok l.
Proof.
  intros [-> | (x & Hx & ->)].
  - exists []. rewrite List.app_nil_r. repeat split; [simpl; lia | constructor].
  - exists [x]. repeat split; [simpl; lia | now repeat constructor].
Qed.

Lemma retryActiveWindowTitle_bus ws attempt e :
  sessionBus (retryActiveWindowTitle ws attempt e) = sessionBus e.
Proof. unfold retryActiveWindowTitle. handler_cases; reflexivity. Qed.

Lemma retryActiveWindowTitle_clock ws attempt e :
  clock (retryActiveWindowTitle ws attempt e) = clock e.
Proof. unfold retryActiveWindowTitle. handler_cases; reflexivity. Qed.

Lemma retryActiveWindowTitle_timers ws attempt e :
  appendsAtMostOne (armedByRetry (clock e) attempt) (timers e)
    (timers (retryActiveWindowTitle ws attempt e)).
Proof.
  unfold retryActiveWindowTitle. handler_cases; try (now left).
  - right. eexists. split; [|reflexivity]. now left.
  - right. eexists. split; [|reflexivity]. right.
    split; [|reflexivity]. apply Z.ltb_ge. assumption.
Qed.

Lemma retryCheck_bus ws attempt e :
  appendsAtMostOne (usableChanged ws) (sessionBus e)
    (sessionBus (retryCheck ws attempt e)).
Proof.
  unfold retryCheck.
  destruct (m_lastActiveWindow e) as [last|]; [|now left].
  destruct (negb (hasProblematicTitle (caption ws last))
            && negb (String.eqb (caption ws last) (resourceClass ws last)))
    eqn:Hus; frame_simpl.
  - right. eexists. split; [|reflexivity]. exists last. now split.
  - left. apply retryActiveWindowTitle_bus.
Qed.

Lemma retryCheck_timers ws attempt e :
  appendsAtMostOne (armedByRetry (clock e) (attempt + 1)) (timers e)
    (timers (retryCheck ws attempt e)).
Proof.
  unfold retryCheck.
  destruct (m_lastActiveWindow e) as [last|]; [|now left].
  destruct (negb _ && negb _); frame_simpl; [now left|].
  apply retryActiveWindowTitle_timers.
Qed.

Lemma retryCheck_clock ws attempt e :
  clock (retryCheck ws attempt e) = clock e.
Proof.
  unfold retryCheck.
  destruct (m_lastActiveWindow e) as [last|]; [|reflexivity].
  destruct (negb _ && negb _); frame_simpl; [reflexivity|].
  apply retryActiveWindowTitle_clock.
Qed.

Lemma pollWindowTitle_bus ws e :
  appendsAtMostOne (usableChanged ws) (sessionBus e)
    (sessionBus (pollWindowTitle ws e)).
Proof.
  unfold pollWindowTitle.
  destruct (activeWindow ws) as [w|]; frame_simpl; [|now left].
  destruct (bool_decide _); frame_simpl; [|now left].
  destruct (negb (hasProblematicTitle (caption ws w))
            && negb (String.eqb (caption ws w) (resourceClass ws w)))
    eqn:Hus; frame_simpl; [|now left].
  right. eexists. split; [|reflexivity]. exists w. now split.
Qed.

Lemma pollWindowTitle_timers ws e :
  appendsAtMostOne (fun t => t = mkTimer (clock e + 500) SlotPollWindowTitle)
    (timers e) (timers (pollWindowTitle ws e)).
Proof.
  unfold pollWindowTitle.
  destruct (activeWindow ws) as [w|]; frame_simpl; [|now left].
  destruct (bool_decide _); frame_simpl; [|now left].
  destruct (negb _ && negb _); frame_simpl; [now left|].
  right. eexists. split; reflexivity.
Qed.

Lemma pollWindowTitle_clock ws e : clock (pollWindowTitle ws e) = clock e.
Proof. unfold pollWindowTitle. handler_cases; reflexivity. Qed.

Lemma pollWindowTitle_lastActive ws e :
  m_lastActiveWindow (pollWindowTitle ws e) = m_lastActiveWindow e.
Proof. unfold pollWindowTitle. handler_cases; reflexivity. Qed.

Lemma onActiveClientChanged_bus ws e :
  appendsAtMostOne (activeReport Changed ws) (sessionBus e)
    (sessionBus (onActiveClientChanged ws e)).
Proof.
  unfold onActiveClientChanged.
  destruct (activeWindow ws) as [w|] eqn:Hact; [|now left].
  right. exists (mkMessage Changed (resourceClass ws w) (caption ws w)).
  split; [exists w; now split|].
  destruct (hasProblematicTitle _ || String.eqb _ _); cbv beta iota zeta;
    [now rewrite retryActiveWindowTitle_bus | reflexivity].
Qed.

Lemma onActiveClientChanged_timers ws e :
  appendsAtMostOne (armedByRetry (clock e) 1) (timers e)
    (timers (onActiveClientChanged ws e)).
Proof.
  unfold onActiveClientChanged.
  destruct (activeWindow ws) as [w|] eqn:Hact; [|now left].
  destruct (hasProblematicTitle _ || String.eqb _ _); cbv beta iota zeta;
    [|now left].
  match goal with
  | |- context [retryActiveWindowTitle ws 1 ?x] =>
      exact (retryActiveWindowTitle_timers ws 1 x)
  end.
Qed.

Lemma onActiveClientChanged_clock ws e :
  clock (onActiveClientChanged ws e) = clock e.
Proof.
  unfold onActiveClientChanged.
  destruct (activeWindow ws) as [w|]; [|reflexivity].
  destruct (hasProblematicTitle _ || String.eqb _ _); cbv beta iota zeta;
    [now rewrite retryActiveWindowTitle_clock | reflexivity].
Qed.

Lemma emitInitialState_bus ws e :
  appendsAtMostOne (activeReport Initial ws) (sessionBus e)
    (sessionBus (emitInitialState ws e)).
Proof.
  unfold emitInitialState.
  destruct (activeWindow ws) as [w|] eqn:Hact; [|now left].
  right. eexists. split; [|reflexivity]. exists w. now split.
Qed.

Lemma onCaptionChanged_bus ws w e :
  appendsAtMostOne (activeReport Changed ws) (sessionBus e)
    (sessionBus (onCaptionChanged ws w e)).
Proof.
  unfold onCaptionChanged.
  destruct (bool_decide (Some w = activeWindow ws)) eqn:Hact; [|now left].
  apply bool_decide_eq_true_1 in Hact.
  right. eexists. split; [exists w; split; [now symmetry | reflexivity]|].
  destruct (bool_decide _ && negb _); reflexivity.
Qed.

Lemma onCaptionChanged_frame ws w e :
  timers (onCaptionChanged ws w e) = timers e
  /\ clock (onCaptionChanged ws w e) = clock e
  /\ m_lastActiveWindow (onCaptionChanged ws w e) = m_lastActiveWindow e
  /\ captionConnections (onCaptionChanged ws w e) = captionConnections e.
Proof. unfold onCaptionChanged. handler_cases; repeat split. Qed.

Lemma deliverCaptionChanged_frame ws w conns e :
  timers (deliverCaptionChanged ws w conns e) = timers e
  /\ clock (deliverCaptionChanged ws w conns e) = clock e
  /\ m_lastActiveWindow (deliverCaptionChanged ws w conns e) = m_lastActiveWindow e
  /\ captionConnections (deliverCaptionChanged ws w conns e) = captionConnections e.
Proof.
  revert e. induction conns as [|c conns IH]; intros e; simpl; [repeat split|].
  destruct (bool_decide (c = w)); [|apply IH].
  destruct (IH (onCaptionChanged ws w e)) as (H1 & H2 & H3 & H4).
  destruct (onCaptionChanged_frame ws w e) as (G1 & G2 & G3 & G4).
  rewrite H1, H2, H3, H4. now repeat split.
Qed.

Lemma deliverCaptionChanged_bus ws w conns e :
  exists msgs,
    sessionBus (deliverCaptionChanged ws w conns e) = sessionBus e ++ msgs
    /\ Forall (activeReport Changed ws) msgs.
Proof.
  revert e. induction conns as [|c conns IH]; intros e; simpl.
  - exists []. now rewrite List.app_nil_r.
  - destruct (bool_decide (c = w)); [|apply IH].
    destruct (IH (onCaptionChanged ws w e)) as (msgs & Hbus & Hall).
    destruct (onCaptionChanged_bus ws w e) as [Heq | (m & Hm & Heq)].
    + exists msgs. now rewrite Hbus, Heq.
    + exists (m :: msgs). rewrite Hbus, Heq, <- List.app_assoc.
      split; [reflexivity | now constructor].
Qed.

Lemma runSlot_bus ws s e :
  appendsAtMostOne (slotMessage ws s) (sessionBus e) (sessionBus (runSlot ws s e)).
Proof.
  destruct s; simpl.
  - apply retryCheck_bus.
  - apply pollWindowTitle_bus.
  - apply onActiveClientChanged_bus.
  - apply emitInitialState_bus.
Qed.

Lemma runSlot_timers ws s e :
  appendsAtMostOne (slotTimer (clock e) s) (timers e) (timers (runSlot ws s e)).
Proof.
  destruct s; simpl.
  - apply retryCheck_timers.
  - apply pollWindowTitle_timers.
  - apply onActiveClientChanged_timers.
  - left. unfold emitInitialState. handler_cases; reflexivity.
Qed.

Lemma runSlot_clock ws s e : clock (runSlot ws s e) = clock e.
Proof.
  destruct s; simpl.
  - apply retryCheck_clock.
  - apply pollWindowTitle_clock.
  - apply onActiveClientChanged_clock.
  - unfold emitInitialState. handler_cases; reflexivity.
Qed.

Lemma slotMessage_current ws s m : slotMessage ws s m -> currentReport ws m.
Proof.
  destruct s; simpl.
  1,2: intros (w & _ & ->); exists Changed, w; reflexivity.
  - intros (w & _ & ->). exists Changed, w. reflexivity.
  - intros (w & _ & ->). exists Initial, w. reflexivity.
Qed.

Lemma armedByRetry_handlerTimer c attempt t :
  1 <= attempt -> armedByRetry c attempt t -> handlerTimer t.
Proof.
  intros Hlo [-> | [Hhi ->]]; (split; [|reflexivity]).
  - exact I.
  - unfold boundedAttempt. cbn [receiver]. lia.
Qed.

Lemma slotTimer_handlerTimer c s t :
  boundedAttempt (mkTimer c s) -> slotTimer c s t -> handlerTimer t.
Proof.
  unfold boundedAttempt. destruct s as [attempt| | |];
    cbn [receiver slotTimer]; intros Hb Ht.
  - apply (armedByRetry_handlerTimer c (attempt + 1)); [lia | exact Ht].
  - subst t. split; simpl; [exact I | reflexivity].
  - now apply (armedByRetry_handlerTimer c 1).
  - contradiction.
Qed.

(** What one event does to the timers: a timer expiry removes the expired
    timer and lets its slot arm at most one; every other event leaves the
    pending timers in place and arms at most one. *)
Lemma timeout_timers ws e t rest :
  nextTimer (timers e) = Some (t, rest) ->
  appendsAtMostOne (slotTimer (Z.max (clock e) (due t)) (receiver t)) rest
    (timers (timeout ws e)).
Proof.
  intros Hnext. unfold timeout. rewrite Hnext.
  exact (runSlot_timers ws (receiver t)
           (set_clock (Z.max (clock e) (due t)) (set_timers rest e))).
Qed.

Lemma timeout_bus ws e t rest :
  nextTimer (timers e) = Some (t, rest) ->
  appendsAtMostOne (slotMessage ws (receiver t)) (sessionBus e)
    (sessionBus (timeout ws e)).
Proof.
  intros Hnext. unfold timeout. rewrite Hnext.
  exact (runSlot_bus ws (receiver t)
           (set_clock (Z.max (clock e) (due t)) (set_timers rest e))).
Qed.

Lemma timeout_idle ws e : nextTimer (timers e) = None -> timeout ws e = e.
Proof. intros Hnext. unfold timeout. now rewrite Hnext. Qed.

Lemma dispatch_timers_external ws ev e :
  ev <> Timeout ->
  appendsAtMostOne handlerTimer (timers e) (timers (dispatch ws ev e)).
Proof.
  intros Hev. destruct ev as [|w|w|w|]; simpl; [| | | |contradiction].
  - eapply appendsAtMostOne_impl; [|apply onActiveClientChanged_timers].
    intros t. apply armedByRetry_handlerTimer. lia.
  - left. destruct w; reflexivity.
  - destruct w as [w|]; [|now left].
    right. eexists. split; [|unfold onWindowRemoved; handler_cases; reflexivity].
    split; simpl; [exact I | reflexivity].
  - left. apply deliverCaptionChanged_frame.
Qed.

Lemma dispatch_bus ws ev e :
  exists msgs,
    sessionBus (dispatch ws ev e) = sessionBus e ++ msgs
    /\ Forall (currentReport ws) msgs
    /\ match ev with
       | CaptionChanged _ => True
       | _ => (List.length msgs <= 1)%nat
       end.
Proof.
  destruct ev as [|w|w|w|]; simpl.
  - destruct (appendsAtMostOne_list _ _ _ (onActiveClientChanged_bus ws e))
      as (l & Heq & Hlen & Hall).
    exists l. repeat split; [exact Heq | | exact Hlen].
    eapply List.Forall_impl; [|exact Hall].
    intros m (x & _ & ->). exists Changed, x. reflexivity.
  - destruct w as [w|]; simpl.
    + eexists. split; [reflexivity|]. split; [|simpl; lia].
      repeat constructor. exists Created, w. reflexivity.
    + exists []. rewrite List.app_nil_r. repeat split; [constructor | simpl; lia].
  - destruct w as [w|]; simpl.
    + exists [mkMessage Destroyed (resourceClass ws w) (caption ws w)].
      split; [unfold onWindowRemoved; handler_cases; reflexivity|].
      split; [|simpl; lia].
      repeat constructor. exists Destroyed, w. reflexivity.
    + exists []. rewrite List.app_nil_r. repeat split; [constructor | simpl; lia].
  - destruct (deliverCaptionChanged_bus ws w (captionConnections e) e)
      as (msgs & Heq & Hall).
    exists msgs. repeat split; [exact Heq|].
    eapply List.Forall_impl; [|exact Hall].
    intros m (x & _ & ->). exists Changed, x. reflexivity.
  - destruct (nextTimer (timers e)) as [[t rest]|] eqn:Hnext.
    + destruct (appendsAtMostOne_list _ _ _ (timeout_bus ws e t rest Hnext))
        as (l & Heq & Hlen & Hall).
      exists l. repeat split; [exact Heq | | exact Hlen].
      eapply List.Forall_impl; [|exact Hall]. apply slotMessage_current.
    + rewrite (timeout_idle ws e Hnext). exists [].
      rewrite List.app_nil_r. repeat split; [constructor | simpl; lia].
Qed.

(** ** Counting messages and timers *)

Lemma countMember_app k l1 l2 :
  countMember k (l1 ++ l2) = (countMember k l1 + countMember k l2)%nat.
Proof. unfold countMember. now rewrite List.filter_app, List.length_app. Qed.

Lemma countMember_other k k' msgs :
  SignalName_eqb k' k = false ->
  Forall (fun m => member m = k') msgs -> countMember k msgs = 0%nat.
Proof.
  intros Hne Hall. unfold countMember.
  induction Hall as [|m msgs Hm _ IH]; [reflexivity|].
  simpl. now rewrite Hm, Hne.
Qed.

Lemma countMember_le_length k msgs :
  (countMember k msgs <= List.length msgs)%nat.
Proof. unfold countMember. apply List.filter_length_le. Qed.

Lemma slotMessage_member ws s m :
  slotMessage ws s m ->
  member m = match s with SlotEmitInitialState => Initial | _ => Changed end.
Proof. destruct s; simpl; intros (w & _ & ->); reflexivity. Qed.

Lemma slotTimer_not_initial c s t : slotTimer c s t -> isInitialTimer t = false.
Proof.
  destruct s; simpl; try contradiction;
    try (intros [-> | [_ ->]]; reflexivity).
  intros ->. reflexivity.
Qed.

Lemma countInitialTimers_append ts ts' :
  appendsAtMostOne (fun t => isInitialTimer t = false) ts ts' ->
  countInitialTimers ts' = countInitialTimers ts.
Proof.
  intros [-> | (t & Ht & ->)]; [reflexivity|].
  unfold countInitialTimers. rewrite List.filter_app, List.length_app.
  simpl. rewrite Ht. simpl. lia.
Qed.

(** The member names of the messages one event sends. *)
Lemma dispatch_members ws ev e :
  exists msgs,
    sessionBus (dispatch ws ev e) = sessionBus e ++ msgs
    /\ match ev with
       | WindowAdded (Some _) => exists m, msgs = [m] /\ member m = Created
       | WindowRemoved (Some _) => exists m, msgs = [m] /\ member m = Destroyed
       | WindowAdded None | WindowRemoved None => msgs = []
       | WindowActivated | CaptionChanged _ =>
           Forall (fun m => member m = Changed) msgs
       | Timeout =>
           match nextTimer (timers e) with
           | Some (t, _) =>
               (List.length msgs <= 1)%nat
               /\ Forall (fun m => member m
                                   = if isInitialTimer t then Initial else Changed)
                         msgs
           | None => msgs = []
           end
       end.
Proof.
  destruct ev as [|w|w|w|]; simpl.
  - destruct (appendsAtMostOne_list _ _ _ (onActiveClientChanged_bus ws e))
      as (l & Heq & _ & Hall).
    exists l. split; [exact Heq|].
    eapply List.Forall_impl; [|exact Hall]. now intros m (x & _ & ->).
  - destruct w as [w|]; simpl.
    + eexists. split; [reflexivity|]. eexists. split; reflexivity.
    + exists []. now rewrite List.app_nil_r.
  - destruct w as [w|]; simpl.
    + exists [mkMessage Destroyed (resourceClass ws w) (caption ws w)].
      split; [unfold onWindowRemoved; handler_cases; reflexivity|].
      eexists. split; reflexivity.
    + exists []. now rewrite List.app_nil_r.
  - destruct (deliverCaptionChanged_bus ws w (captionConnections e) e)
      as (msgs & Heq & Hall).
    exists msgs. split; [exact Heq|].
    eapply List.Forall_impl; [|exact Hall]. now intros m (x & _ & ->).
  - destruct (nextTimer (timers e)) as [[t rest]|] eqn:Hnext.
    + destruct (appendsAtMostOne_list _ _ _ (timeout_bus ws e t rest Hnext))
        as (l & Heq & Hlen & Hall).
      exists l. split; [exact Heq|]. split; [exact Hlen|].
      eapply List.Forall_impl; [|exact Hall].
      intros m Hm. rewrite (slotMessage_member _ _ _ Hm).
      unfold isInitialTimer. now destruct (receiver t).
    + rewrite (timeout_idle ws e Hnext). exists []. now rewrite List.app_nil_r.
Qed.

Lemma dispatch_countCreated ws ev e :
  countMember Created (sessionBus (dispatch ws ev e))
  = (countMember Created (sessionBus e) + (if isAdded (ws, ev) then 1 else 0))%nat.
Proof.
  destruct (dispatch_members ws ev e) as (msgs & -> & Hm).
  rewrite countMember_app. f_equal.
  destruct ev as [|[w|]|[w|]|w|]; cbn [isAdded snd].
  - now apply (countMember_other Created Changed).
  - destruct Hm as (m & -> & Hmem). unfold countMember. simpl. now rewrite Hmem.
  - now subst msgs.
  - destruct Hm as (m & -> & Hmem). unfold countMember. simpl. now rewrite Hmem.
  - now subst msgs.
  - now apply (countMember_other Created Changed).
  - destruct (nextTimer (timers e)) as [[t rest]|]; [|now subst msgs].
    destruct Hm as [_ Hall].
    destruct (isInitialTimer t);
      [now apply (countMember_other Created Initial)
      |now apply (countMember_other Created Changed)].
Qed.

Lemma dispatch_countDestroyed ws ev e :
  countMember Destroyed (sessionBus (dispatch ws ev e))
  = (countMember Destroyed (sessionBus e)
     + (if isRemoved (ws, ev) then 1 else 0))%nat.
Proof.
  destruct (dispatch_members ws ev e) as (msgs & -> & Hm).
  rewrite countMember_app. f_equal.
  destruct ev as [|[w|]|[w|]|w|]; cbn [isRemoved snd].
  - now apply (countMember_other Destroyed Changed).
  - destruct Hm as (m & -> & Hmem). unfold countMember. simpl. now rewrite Hmem.
  - now subst msgs.
  - destruct Hm as (m & -> & Hmem). unfold countMember. simpl. now rewrite Hmem.
  - now subst msgs.
  - now apply (countMember_other Destroyed Changed).
  - destruct (nextTimer (timers e)) as [[t rest]|]; [|now subst msgs].
    destruct Hm as [_ Hall].
    destruct (isInitialTimer t);
      [now apply (countMember_other Destroyed Initial)
      |now apply (countMember_other Destroyed Changed)].
Qed.

(** X3.  Along any run, whatever else happens, the number of [Created]
    messages grows by exactly the number of windows added and the number
    of [Destroyed] messages by exactly the number of windows removed:
    neither retries, polls, caption changes nor activations ever send or
    suppress one. *)
Theorem created_destroyed_counts trace e :
  countMember Created (sessionBus (run trace e))
  = (countMember Created (sessionBus e) + countAdded trace)%nat
  /\ countMember Destroyed (sessionBus (run trace e))
     = (countMember Destroyed (sessionBus e) + countRemoved trace)%nat.
Proof.
  revert e. induction trace as [|[ws ev] trace IH]; intros e.
  - unfold countAdded, countRemoved. simpl. split; lia.
  - simpl. destruct (IH (dispatch ws ev e)) as [Hc Hd].
    rewrite Hc, Hd, dispatch_countCreated, dispatch_countDestroyed.
    unfold countAdded, countRemoved. simpl.
    destruct (isAdded (ws, ev)), (isRemoved (ws, ev)); simpl; split; lia.
Qed.

Lemma dispatch_initialBudget ws ev e :
  (initialBudget (dispatch ws ev e) <= initialBudget e)%nat.
Proof.
  unfold initialBudget.
  assert (Hdec : ev = Timeout \/ ev <> Timeout)
    by (destruct ev; ((now left) || (right; discriminate))).
  destruct Hdec as [->|Hev].
  - simpl. destruct (nextTimer (timers e)) as [[t rest]|] eqn:Hnext.
    2:{ rewrite (timeout_idle ws e Hnext). lia. }
    pose proof (nextTimer_filter_length isInitialTimer _ _ _ Hnext) as Hcount.
    assert (Hts : countInitialTimers (timers (timeout ws e))
                  = countInitialTimers rest).
    { apply countInitialTimers_append.
      eapply appendsAtMostOne_impl; [|exact (timeout_timers ws e t rest Hnext)].
      intros x. apply slotTimer_not_initial. }
    destruct (dispatch_members ws Timeout e) as (msgs & Hbus & Hm).
    simpl in Hbus, Hm. rewrite Hnext in Hm. destruct Hm as [Hlen Hall].
    rewrite Hbus, countMember_app, Hts.
    unfold countInitialTimers. rewrite Hcount. cbn [List.filter].
    destruct (isInitialTimer t); cbn [List.length].
    + pose proof (countMember_le_length Initial msgs). lia.
    + rewrite (countMember_other Initial Changed msgs eq_refl Hall). lia.
  - assert (Hts : countInitialTimers (timers (dispatch ws ev e))
                  = countInitialTimers (timers e)).
    { apply countInitialTimers_append.
      eapply appendsAtMostOne_impl; [|exact (dispatch_timers_external ws ev e Hev)].
      now intros x [_ Hx]. }
    destruct (dispatch_members ws ev e) as (msgs & Hbus & Hm).
    rewrite Hbus, countMember_app, Hts.
    assert (Hzero : countMember Initial msgs = 0%nat).
    { destruct ev as [|[w|]|[w|]|w|]; try contradiction.
      - now apply (countMember_other Initial Changed).
      - destruct Hm as (m & -> & Hmem). unfold countMember. simpl. now rewrite Hmem.
      - now subst msgs.
      - destruct Hm as (m & -> & Hmem). unfold countMember. simpl. now rewrite Hmem.
      - now subst msgs.
      - now apply (countMember_other Initial Changed). }
    lia.
Qed.

Lemma run_initialBudget trace e :
  (initialBudget (run trace e) <= initialBudget e)%nat.
Proof.
  revert e. induction trace as [|[ws ev] trace IH]; intros e; simpl; [lia|].
  specialize (IH (dispatch ws ev e)).
  pose proof (dispatch_initialBudget ws ev e). lia.
Qed.

(** X2.  Over the whole life of an effect, from its construction and
    through any sequence of events, [Initial] is sent at most once: only
    the constructor arms [emitInitialState], and no handler re-arms it. *)
Theorem initial_sent_at_most_once trace now :
  (countMember Initial (sessionBus (run trace (construct now))) <= 1)%nat.
Proof.
  pose proof (run_initialBudget trace (construct now)) as H.
  change (initialBudget (construct now)) with 1%nat in H.
  unfold initialBudget in H. lia.
Qed.

(** X1.  Start-up: the first timer expiry after construction runs
    [emitInitialState], which sends one [Initial] with the active window's
    class and caption, or nothing when no window is active.  It never
    tracks the window or arms a retry, even if the caption is empty. *)
Theorem startup_initial_state ws now :
  timeout ws (construct now)
  = mkEffect None ∅ now [] []
      match activeWindow ws with
      | Some w => [mkMessage Initial (resourceClass ws w) (caption ws w)]
      | None => []
      end.
Proof.
  unfold timeout, construct, singleShot. cbn.
  replace (Z.max now (now + 0)) with now by lia.
  unfold emitInitialState. cbn.
  destruct (activeWindow ws); reflexivity.
Qed.

(** ** Pending timers *)

Lemma appendsAtMostOne_length {A : Type} (ok : A -> Prop) before after :
  appendsAtMostOne ok before after ->
  (List.length before <= List.length after <= S (List.length before))%nat.
Proof.
  intros [-> | (x & _ & ->)]; [lia|].
  rewrite List.length_app. simpl. lia.
Qed.

Lemma dispatch_timers_length ws ev e :
  (List.length (timers (dispatch ws ev e))
   <= List.length (timers e) + (if isArming (ws, ev) then 1 else 0))%nat.
Proof.
  destruct ev as [|w|w|w|]; cbn [isArming snd dispatch].
  - pose proof (appendsAtMostOne_length _ _ _ (onActiveClientChanged_timers ws e)).
    lia.
  - destruct w; simpl; lia.
  - destruct w as [w|]; [|simpl; lia].
    unfold onWindowRemoved. handler_cases; rewrite List.length_app; simpl; lia.
  - destruct (deliverCaptionChanged_frame ws w (captionConnections e) e) as [-> _].
    lia.
  - destruct (nextTimer (timers e)) as [[t rest]|] eqn:Hnext.
    + pose proof (appendsAtMostOne_length _ _ _ (timeout_timers ws e t rest Hnext)).
      pose proof (nextTimer_length _ _ _ Hnext). lia.
    + rewrite (timeout_idle ws e Hnext). lia.
Qed.

(** X6.  Checks never multiply.  A timer expiry never leaves more timers
    pending than it found (the expired check arms at most one successor),
    and caption changes and window additions arm none; so after any run
    the number of pending timers is at most the number there was plus the
    number of activations and removals in the run. *)
Theorem pending_timers_bounded trace e :
  (List.length (timers (run trace e))
   <= List.length (timers e) + countArming trace)%nat.
Proof.
  revert e. induction trace as [|[ws ev] trace IH]; intros e.
  - unfold countArming. simpl. lia.
  - simpl. specialize (IH (dispatch ws ev e)).
    pose proof (dispatch_timers_length ws ev e).
    unfold countArming in *. simpl.
    destruct (isArming (ws, ev)); simpl; lia.
Qed.

Lemma handlerTimer_bounded t : handlerTimer t -> boundedAttempt t.
Proof. now intros [H _]. Qed.

Lemma appendsAtMostOne_Forall {A : Type} (ok P : A -> Prop) before after :
  (forall x, ok x -> P x) ->
  appendsAtMostOne ok before after -> Forall P before -> Forall P after.
Proof.
  intros Himp [-> | (x & Hx & ->)] Hall; [exact Hall|].
  apply List.Forall_app. split; [exact Hall|].
  constructor; [now apply Himp | constructor].
Qed.

Lemma dispatch_boundedAttempt ws ev e :
  Forall boundedAttempt (timers e) ->
  Forall boundedAttempt (timers (dispatch ws ev e)).
Proof.
  intros Hall.
  assert (Hdec : ev = Timeout \/ ev <> Timeout)
    by (destruct ev; ((now left) || (right; discriminate))).
  destruct Hdec as [->|Hev].
  - simpl. destruct (nextTimer (timers e)) as [[t rest]|] eqn:Hnext.
    2:{ now rewrite (timeout_idle ws e Hnext). }
    destruct (nextTimer_Forall _ _ _ _ Hnext Hall) as [Ht Hrest].
    eapply appendsAtMostOne_Forall;
      [|exact (timeout_timers ws e t rest Hnext)|exact Hrest].
    intros x Hx. apply handlerTimer_bounded.
    eapply slotTimer_handlerTimer; [|exact Hx]. exact Ht.
  - eapply appendsAtMostOne_Forall;
      [|exact (dispatch_timers_external ws ev e Hev)|exact Hall].
    intros x. apply handlerTimer_bounded.
Qed.

Lemma run_boundedAttempt trace e :
  Forall boundedAttempt (timers e) ->
  Forall boundedAttempt (timers (run trace e)).
Proof.
  revert e. induction trace as [|[ws ev] trace IH]; intros e Hall; [exact Hall|].
  simpl. apply IH. now apply dispatch_boundedAttempt.
Qed.

Lemma retryDelay_values attempt :
  1 <= attempt <= 3 ->
  retryDelay attempt = 50 \/ retryDelay attempt = 100 \/ retryDelay attempt = 200.
Proof.
  intros Hb.
  assert (H : attempt = 1 \/ attempt = 2 \/ attempt = 3) by lia.
  destruct H as [-> | [-> | ->]]; [left | right; left | right; right]; reflexivity.
Qed.

(** X7.  The attempt number stays in range.  If every pending retry check
    has an attempt number from 1 to 3 (as after construction), then so has
    every pending retry check after any run; hence the shift
    [1 << (attempt - 1)] is always by 0, 1 or 2 bits and the delay is
    50, 100 or 200 ms. *)
Theorem retry_attempts_stay_bounded trace e :
  Forall boundedAttempt (timers e) ->
  Forall (fun t => match receiver t with
                   | SlotRetryCheck attempt =>
                       0 <= attempt - 1 <= 2
                       /\ (retryDelay attempt = 50 \/ retryDelay attempt = 100
                           \/ retryDelay attempt = 200)
                   | _ => True
                   end)
         (timers (run trace e)).
Proof.
  intros Hall. apply (run_boundedAttempt trace) in Hall.
  eapply List.Forall_impl; [|exact Hall].
  intros t. unfold boundedAttempt.
  destruct (receiver t) as [attempt| | |]; try (intros; exact I).
  intros Hb. split; [lia | now apply retryDelay_values].
Qed.

Lemma retry_attempts_stay_bounded_witness :
  Forall boundedAttempt (timers (construct 0))
  /\ Forall (fun t => match receiver t with
                      | SlotRetryCheck attempt =>
                          0 <= attempt - 1 <= 2
                          /\ (retryDelay attempt = 50 \/ retryDelay attempt = 100
                              \/ retryDelay attempt = 200)
                      | _ => True
                      end)
       (timers (run [(Sample.wsBrowserEmpty, Timeout);
                     (Sample.wsBrowserEmpty, WindowActivated);
                     (Sample.wsBrowserEmpty, Timeout);
                     (Sample.wsBrowserEmpty, Timeout)] (construct 0))).
Proof.
  assert (H : Forall boundedAttempt (timers (construct 0)))
    by (repeat constructor).
  split; [exact H|].
  exact (retry_attempts_stay_bounded _ (construct 0) H).
Defined.

(** ** What is sent *)

(** X4.  A retry check or a poll tick sends at most one message, and only
    a [Changed] whose title is usable: not empty, not starting with an
    underscore and different from the class.  The retry machinery never
    publishes a placeholder title. *)
Theorem checks_send_only_usable_titles ws attempt e :
  appendsAtMostOne
    (fun m => exists w,
       m = mkMessage Changed (resourceClass ws w) (caption ws w)
       /\ hasProblematicTitle (caption ws w) = false
       /\ caption ws w <> resourceClass ws w)
    (sessionBus e) (sessionBus (retryCheck ws attempt e))
  /\ appendsAtMostOne
       (fun m => exists w,
          m = mkMessage Changed (resourceClass ws w) (caption ws w)
          /\ hasProblematicTitle (caption ws w) = false
          /\ caption ws w <> resourceClass ws w)
       (sessionBus e) (sessionBus (pollWindowTitle ws e)).
Proof.
  assert (Himp : forall m, usableChanged ws m ->
            exists w, m = mkMessage Changed (resourceClass ws w) (caption ws w)
                      /\ hasProblematicTitle (caption ws w) = false
                      /\ caption ws w <> resourceClass ws w).
  { intros m (w & Hus & ->). exists w. split; [reflexivity|].
    unfold usableTitle in Hus. apply andb_true_iff in Hus as [Hp Hne].
    apply negb_true_iff in Hp. apply negb_true_iff in Hne.
    split; [exact Hp|]. now apply String.eqb_neq. }
  split; (eapply appendsAtMostOne_impl; [exact Himp|]).
  - apply retryCheck_bus.
  - apply pollWindowTitle_bus.
Qed.

Lemma run_bus trace e :
  exists msgs,
    sessionBus (run trace e) = sessionBus e ++ msgs
    /\ Forall (fun m => exists ws, In ws (List.map fst trace) /\ currentReport ws m)
         msgs.
Proof.
  revert e. induction trace as [|[ws ev] trace IH]; intros e; simpl.
  - exists []. now rewrite List.app_nil_r.
  - destruct (IH (dispatch ws ev e)) as (later & Hlater & Hall).
    destruct (dispatch_bus ws ev e) as (now_ & Hnow & Hcur & _).
    exists (now_ ++ later). rewrite Hlater, Hnow, <- List.app_assoc.
    split; [reflexivity|]. apply List.Forall_app. split.
    + eapply List.Forall_impl; [|exact Hcur].
      intros m Hm. exists ws. split; [now left | exact Hm].
    + eapply List.Forall_impl; [|exact Hall].
      intros m (ws' & Hin & Hm). exists ws'. split; [now right | exact Hm].
Qed.

(** X5.  The bus is append-only and never carries a remembered title.
    A run leaves everything already sent in place, and every message it
    adds has, as class and title, the class and caption that some window
    had in the compositor state of one of the run's events: the effect
    keeps no copy of a caption to send later. *)
Theorem run_reports_current_state trace e :
  exists msgs,
    sessionBus (run trace e) = sessionBus e ++ msgs
    /\ Forall (fun m => exists ws w,
                 In ws (List.map fst trace)
                 /\ windowClass m = resourceClass ws w
                 /\ windowTitle m = caption ws w)
         msgs.
Proof.
  destruct (run_bus trace e) as (msgs & Heq & Hall).
  exists msgs. split; [exact Heq|].
  eapply List.Forall_impl; [|exact Hall].
  intros m (ws & Hin & k & w & ->). exists ws, w. now repeat split.
Qed.

(** ** References to windows *)

Lemma retryActiveWindowTitle_lastActive ws attempt e h :
  m_lastActiveWindow (retryActiveWindowTitle ws attempt e) = Some h ->
  m_lastActiveWindow e = Some h.
Proof.
  unfold retryActiveWindowTitle.
  destruct (m_lastActiveWindow e) as [last|] eqn:Hlast;
    [|cbv beta iota; now rewrite Hlast].
  destruct (negb _); frame_simpl; [discriminate|].
  destruct (3 <? attempt); frame_simpl; now rewrite Hlast.
Qed.

Lemma retryCheck_lastActive ws attempt e h :
  m_lastActiveWindow (retryCheck ws attempt e) = Some h ->
  m_lastActiveWindow e = Some h.
Proof.
  unfold retryCheck.
  destruct (m_lastActiveWindow e) as [last|] eqn:Hlast;
    [|cbv beta iota; now rewrite Hlast].
  destruct (negb _ && negb _); frame_simpl; [discriminate|].
  intros H. apply retryActiveWindowTitle_lastActive in H. congruence.
Qed.

Lemma onActiveClientChanged_lastActive ws e h :
  m_lastActiveWindow (onActiveClientChanged ws e) = Some h ->
  m_lastActiveWindow e = Some h \/ activeWindow ws = Some h.
Proof.
  unfold onActiveClientChanged.
  destruct (activeWindow ws) as [w|] eqn:Hact; [|now left].
  destruct (hasProblematicTitle _ || String.eqb _ _); cbv beta iota zeta.
  - intros H. apply retryActiveWindowTitle_lastActive in H.
    right. exact H.
  - frame_simpl. discriminate.
Qed.

Lemma dispatch_lastActive ws ev e h :
  m_lastActiveWindow (dispatch ws ev e) = Some h ->
  m_lastActiveWindow e = Some h \/ activeWindow ws = Some h.
Proof.
  destruct ev as [|w|w|w|]; simpl.
  - apply onActiveClientChanged_lastActive.
  - destruct w; simpl; now left.
  - destruct w as [w|]; [|now left].
    unfold onWindowRemoved. frame_simpl.
    destruct (bool_decide (m_lastActiveWindow e = Some w)); frame_simpl;
      [discriminate | now left].
  - destruct (deliverCaptionChanged_frame ws w (captionConnections e) e)
      as (_ & _ & -> & _).
    now left.
  - unfold timeout. destruct (nextTimer (timers e)) as [[t rest]|]; [|now left].
    destruct (receiver t); simpl.
    + intros H. left. now apply retryCheck_lastActive in H.
    + rewrite pollWindowTitle_lastActive. now left.
    + intros H. apply onActiveClientChanged_lastActive in H. exact H.
    + unfold emitInitialState. destruct (activeWindow ws); now left.
Qed.

Lemma run_unreferenced w trace e :
  neverActive w trace ->
  m_lastActiveWindow e <> Some w -> w ∉ m_polledWindows e ->
  m_lastActiveWindow (run trace e) <> Some w
  /\ (w ∉ m_polledWindows (run trace e)).
Proof.
  intros Hnever. revert e.
  induction Hnever as [|[ws ev] trace Hna _ IH]; intros e Hlast Hpolled;
    [now split|].
  simpl in *. apply IH.
  - intros H. apply dispatch_lastActive in H as [H | H]; contradiction.
  - intros H. apply dispatch_polled in H as [H | [H _]]; contradiction.
Qed.

(** X8.  No reference to a destroyed window survives.  After the removal
    handler has run for [w], and for as long as the compositor does not
    report [w] active again, [w] is neither the tracked window nor in the
    polled set, whatever events and timer expiries follow; so no pending
    check can read the class or caption of the destroyed window. *)
Theorem destroyed_window_not_referenced ws w e trace :
  neverActive w trace ->
  m_lastActiveWindow (run trace (onWindowRemoved ws (Some w) e)) <> Some w
  /\ (w ∉ m_polledWindows (run trace (onWindowRemoved ws (Some w) e))).
Proof.
  intros Hnever. apply run_unreferenced; [exact Hnever| |].
  - unfold onWindowRemoved. frame_simpl.
    destruct (bool_decide (m_lastActiveWindow e = Some w)) eqn:Hd; frame_simpl;
      [discriminate|].
    now apply bool_decide_eq_false_1 in Hd.
  - unfold onWindowRemoved. frame_simpl.
    destruct (bool_decide _); frame_simpl; apply not_elem_of_remove.
Qed.

Lemma destroyed_window_not_referenced_witness :
  neverActive Sample.browser
    [(Sample.wsEditorEmpty, WindowActivated); (Sample.wsEditorEmpty, Timeout);
     (Sample.wsNoneTitled, Timeout)]
  /\ m_lastActiveWindow
       (run [(Sample.wsEditorEmpty, WindowActivated);
             (Sample.wsEditorEmpty, Timeout); (Sample.wsNoneTitled, Timeout)]
          (onWindowRemoved Sample.wsNoneEmpty (Some Sample.browser)
             (onActiveClientChanged Sample.wsBrowserEmpty Sample.idle)))
     <> Some Sample.browser.
Proof.
  assert (H : neverActive Sample.browser
                [(Sample.wsEditorEmpty, WindowActivated);
                 (Sample.wsEditorEmpty, Timeout);
                 (Sample.wsNoneTitled, Timeout)])
    by (repeat constructor; simpl; discriminate).
  split; [exact H|].
  exact (proj1 (destroyed_window_not_referenced Sample.wsNoneEmpty
                  Sample.browser
                  (onActiveClientChanged Sample.wsBrowserEmpty Sample.idle)
                  _ H)).
Defined.

(** ** Caption-change subscriptions *)

Lemma onCaptionChanged_active_bus ws w e :
  activeWindow ws = Some w ->
  sessionBus (onCaptionChanged ws w e)
  = sessionBus e ++ [mkMessage Changed (resourceClass ws w) (caption ws w)].
Proof.
  intros Hact. unfold onCaptionChanged.
  rewrite Hact, bool_decide_eq_true_2 by reflexivity.
  destruct (bool_decide _ && negb _); reflexivity.
Qed.

Lemma deliverCaptionChanged_active_bus ws w conns e :
  activeWindow ws = Some w ->
  sessionBus (deliverCaptionChanged ws w conns e)
  = sessionBus e
    ++ List.repeat (mkMessage Changed (resourceClass ws w) (caption ws w))
         (connectionCount w conns).
Proof.
  intros Hact. revert e.
  induction conns as [|c conns IH]; intros e; unfold connectionCount; simpl.
  - now rewrite List.app_nil_r.
  - destruct (bool_decide (c = w)); simpl.
    + rewrite IH, onCaptionChanged_active_bus by exact Hact.
      now rewrite <- List.app_assoc.
    + apply IH.
Qed.

(** X9.  Caption changes are reported once per subscription.  While [w]
    is active, a caption change of [w] sends one [Changed] with the new
    caption for every [captionChanged] connection made for [w], so none
    for a window that was never added (one that existed before the effect
    was loaded) and exactly one for a window added once; each addition of
    [w] makes one more connection and additions of other windows none. *)
Theorem caption_change_sent_per_connection ws w e :
  activeWindow ws = Some w ->
  sessionBus (dispatch ws (CaptionChanged w) e)
  = sessionBus e
    ++ List.repeat (mkMessage Changed (resourceClass ws w) (caption ws w))
         (connectionCount w (captionConnections e))
  /\ (forall ws',
        connectionCount w (captionConnections (onWindowAdded ws' (Some w) e))
        = S (connectionCount w (captionConnections e)))
  /\ (forall ws' w',
        w' <> w ->
        connectionCount w (captionConnections (onWindowAdded ws' (Some w') e))
        = connectionCount w (captionConnections e)).
Proof.
  intros Hact. split; [now apply deliverCaptionChanged_active_bus|].
  split.
  - intros ws'. unfold onWindowAdded, connectionCount. frame_simpl.
    rewrite List.filter_app, List.length_app. simpl.
    rewrite bool_decide_eq_true_2 by reflexivity. simpl. lia.
  - intros ws' w' Hne. unfold onWindowAdded, connectionCount. frame_simpl.
    rewrite List.filter_app, List.length_app. simpl.
    rewrite bool_decide_eq_false_2 by exact Hne. simpl. lia.
Qed.

Lemma caption_change_sent_per_connection_witness :
  activeWindow Sample.wsBrowserTitled = Some Sample.browser
  /\ sessionBus
       (dispatch Sample.wsBrowserTitled (CaptionChanged Sample.browser)
          (onWindowAdded Sample.wsBrowserEmpty (Some Sample.browser) Sample.idle))
     = [mkMessage Created "firefox" "";
        mkMessage Changed "firefox" "Mozilla Firefox"].
Proof.
  split; [reflexivity|].
  exact (proj1 (caption_change_sent_per_connection Sample.wsBrowserTitled
                  Sample.browser
                  (onWindowAdded Sample.wsBrowserEmpty (Some Sample.browser)
                     Sample.idle) eq_refl)).
Defined.

(** ** Pending retry checks after tracking ends *)

Lemma retryCheck_untracked ws attempt e :
  m_lastActiveWindow e = None -> retryCheck ws attempt e = e.
Proof. intros H. unfold retryCheck. now rewrite H. Qed.

Lemma onActiveClientChanged_untracked ws e :
  (forall w, activeWindow ws = Some w -> needsRetry ws w = false) ->
  m_lastActiveWindow e = None ->
  m_lastActiveWindow (onActiveClientChanged ws e) = None.
Proof.
  intros Hgood Hlast.
  destruct (activeWindow ws) as [w|] eqn:Hact.
  - now rewrite (onActiveClientChanged_good ws e w Hact (Hgood w eq_refl)).
  - unfold onActiveClientChanged. now rewrite Hact.
Qed.

Lemma dispatch_untracked ws ev e :
  noRetryNeeded (ws, ev) ->
  m_lastActiveWindow e = None -> m_lastActiveWindow (dispatch ws ev e) = None.
Proof.
  unfold noRetryNeeded. cbn [fst]. intros Hgood Hlast.
  destruct ev as [|w|w|w|]; simpl.
  - now apply onActiveClientChanged_untracked.
  - destruct w; exact Hlast.
  - destruct w as [w|]; [|exact Hlast].
    unfold onWindowRemoved. frame_simpl.
    destruct (bool_decide (m_lastActiveWindow e = Some w)); frame_simpl;
      [reflexivity | exact Hlast].
  - destruct (deliverCaptionChanged_frame ws w (captionConnections e) e)
      as (_ & _ & -> & _).
    exact Hlast.
  - unfold timeout. destruct (nextTimer (timers e)) as [[t rest]|]; [|exact Hlast].
    destruct (receiver t); cbn [runSlot].
    + now rewrite retryCheck_untracked.
    + now rewrite pollWindowTitle_lastActive.
    + now apply onActiveClientChanged_untracked.
    + unfold emitInitialState. destruct (activeWindow ws); exact Hlast.
Qed.

Lemma run_untracked trace e :
  Forall noRetryNeeded trace ->
  m_lastActiveWindow e = None -> m_lastActiveWindow (run trace e) = None.
Proof.
  intros Hall. revert e.
  induction Hall as [|[ws ev] trace Hx _ IH]; intros e Hlast; [exact Hlast|].
  simpl. apply IH. now apply dispatch_untracked.
Qed.

(** X10.  While [w] is tracked, tracking ends with a retry check that
    finds a usable caption, with the activation of a window whose caption
    needs no retry, and with the removal of [w].  From then on, through
    any further events and timer expiries none of which finds an active
    window whose caption needs retrying, no window is tracked and a retry
    check that fires changes nothing: it sends nothing and arms nothing,
    whatever the compositor state when it fires. *)
Theorem retry_checks_silent_after_tracking_ends ws e w trace ws' attempt' :
  m_lastActiveWindow e = Some w ->
  Forall noRetryNeeded trace ->
  (forall attempt,
      usableTitle ws w = true ->
      retryCheck ws' attempt' (run trace (retryCheck ws attempt e))
      = run trace (retryCheck ws attempt e))
  /\ (forall w2,
        activeWindow ws = Some w2 -> needsRetry ws w2 = false ->
        retryCheck ws' attempt' (run trace (onActiveClientChanged ws e))
        = run trace (onActiveClientChanged ws e))
  /\ retryCheck ws' attempt' (run trace (onWindowRemoved ws (Some w) e))
     = run trace (onWindowRemoved ws (Some w) e).
Proof.
  intros Hlast Hall. split; [|split].
  - intros attempt Hus. apply retryCheck_untracked, run_untracked; [exact Hall|].
    now rewrite (retryCheck_usable ws attempt e w Hlast Hus).
  - intros w2 Hact Hgood. apply retryCheck_untracked, run_untracked; [exact Hall|].
    now rewrite (onActiveClientChanged_good ws e w2 Hact Hgood).
  - apply retryCheck_untracked, run_untracked; [exact Hall|].
    unfold onWindowRemoved. frame_simpl.
    now rewrite Hlast, bool_decide_eq_true_2.
Qed.

Lemma retry_checks_silent_after_tracking_ends_witness :
  m_lastActiveWindow (onActiveClientChanged Sample.wsBrowserEmpty Sample.idle)
  = Some Sample.browser
  /\ Forall noRetryNeeded
       [(Sample.wsNoneTitled, Timeout);
        (Sample.wsEditorTitled, WindowActivated);
        (Sample.wsEditorTitled, CaptionChanged Sample.editor)]
  /\ retryCheck Sample.wsBrowserTitled 1
       (run [(Sample.wsNoneTitled, Timeout);
             (Sample.wsEditorTitled, WindowActivated);
             (Sample.wsEditorTitled, CaptionChanged Sample.editor)]
          (onWindowRemoved Sample.wsNoneTitled (Some Sample.browser)
             (onActiveClientChanged Sample.wsBrowserEmpty Sample.idle)))
     = run [(Sample.wsNoneTitled, Timeout);
            (Sample.wsEditorTitled, WindowActivated);
            (Sample.wsEditorTitled, CaptionChanged Sample.editor)]
         (onWindowRemoved Sample.wsNoneTitled (Some Sample.browser)
            (onActiveClientChanged Sample.wsBrowserEmpty Sample.idle)).
Proof.
  split; [reflexivity|].
  assert (H : Forall noRetryNeeded
                [(Sample.wsNoneTitled, Timeout);
                 (Sample.wsEditorTitled, WindowActivated);
                 (Sample.wsEditorTitled, CaptionChanged Sample.editor)]).
  { repeat constructor; intros w Hw; cbn in Hw;
      [discriminate Hw | injection Hw as <-; reflexivity
      | injection Hw as <-; reflexivity]. }
  split; [exact H|].
  exact (proj2 (proj2 (retry_checks_silent_after_tracking_ends
                         Sample.wsNoneTitled
                         (onActiveClientChanged Sample.wsBrowserEmpty Sample.idle)
                         Sample.browser _ Sample.wsBrowserTitled 1
                         eq_refl H))).
Defined.

(** ** The classifier looks at the first character only *)

(** X11.  Appending text to a non-empty title never changes its
    classification: only emptiness and the first character matter. *)
Theorem hasProblematicTitle_append (title more : QString) :
  title <> "" ->
  hasProblematicTitle (String.append title more) = hasProblematicTitle title.
Proof.
  intros Hne. destruct title as [|c rest]; [contradiction|].
  change (String.append (String c rest) more)
    with (String c (String.append rest more)).
  unfold hasProblematicTitle, startsWith. cbn -[ascii_dec String.append].
  destruct (ascii_dec "_" c); [|reflexivity].
  now destruct rest, more.
Qed.

Lemma hasProblematicTitle_append_witness :
  "_NET" <> ""
  /\ hasProblematicTitle (String.append "_NET" "_WM_NAME")
     = hasProblematicTitle "_NET".
Proof.
  assert (H : "_NET" <> "") by discriminate.
  split; [exact H|].
  exact (hasProblematicTitle_append "_NET" "_WM_NAME" H).
Defined.

(** ** Checks read the tracked window when they fire *)

(** X12.  The retry lambda captures only the attempt number and reads the
    tracked window when it fires.  So a check that was armed before [w2]
    was activated acts on [w2]: if [w2]'s caption has become usable by
    then, that check, whatever its attempt number, reports it and ends
    the tracking, and the check armed for [w2] itself stays pending. *)
Theorem pending_check_acts_on_tracked_window ws e w2 ws' attempt :
  activeWindow ws = Some w2 -> needsRetry ws w2 = true ->
  usableTitle ws' w2 = true ->
  retryCheck ws' attempt (onActiveClientChanged ws e)
  = mkEffect None (({[w2]} ∪ m_polledWindows e) ∖ {[w2]}) (clock e)
      (timers e ++ [mkTimer (clock e + 50) (SlotRetryCheck 1)])
      (captionConnections e)
      (sessionBus e
       ++ [mkMessage Changed (resourceClass ws w2) (caption ws w2);
           mkMessage Changed (resourceClass ws' w2) (caption ws' w2)]).
Proof.
  intros Hact Hneed Hus.
  rewrite (onActiveClientChanged_retry ws e w2 Hact Hneed).
  rewrite (retryCheck_usable ws' attempt
             (mkEffect (Some w2) ({[w2]} ∪ m_polledWindows e) (clock e)
                (timers e ++ [mkTimer (clock e + 50) (SlotRetryCheck 1)])
                (captionConnections e)
                (sessionBus e
                 ++ [mkMessage Changed (resourceClass ws w2) (caption ws w2)]))
             w2 eq_refl Hus).
  cbn [m_polledWindows clock timers captionConnections sessionBus].
  now rewrite <- List.app_assoc.
Qed.

Lemma pending_check_acts_on_tracked_window_witness :
  activeWindow Sample.wsEditorEmpty = Some Sample.editor
  /\ needsRetry Sample.wsEditorEmpty Sample.editor = true
  /\ usableTitle Sample.wsEditorTitled Sample.editor = true
  /\ sessionBus
       (retryCheck Sample.wsEditorTitled 3
          (onActiveClientChanged Sample.wsEditorEmpty Sample.idle))
     = [mkMessage Changed "code" "";
        mkMessage Changed "code" "notes.txt - code"].
Proof.
  split; [reflexivity|]. split; [reflexivity|]. split; [reflexivity|].
  exact (f_equal sessionBus
           (pending_check_acts_on_tracked_window Sample.wsEditorEmpty
              Sample.idle Sample.editor Sample.wsEditorTitled 3
              eq_refl eq_refl eq_refl)).
Defined.

(** ** Polling dies out *)

Lemma timeout_settled ws e t rest :
  (forall w, activeWindow ws = Some w -> usableTitle ws w = true) ->
  nextTimer (timers e) = Some (t, rest) ->
  timers (timeout ws e) = rest.
Proof.
  intros Hsettled Hnext. unfold timeout. rewrite Hnext.
  destruct (receiver t) as [attempt| | |]; cbn [runSlot].
  - unfold retryCheck. frame_simpl.
    destruct (m_lastActiveWindow e) as [last|] eqn:Hlast; [|reflexivity].
    destruct (negb (hasProblematicTitle (caption ws last))
              && negb (String.eqb (caption ws last) (resourceClass ws last)))
      eqn:Hus; frame_simpl; [reflexivity|].
    unfold retryActiveWindowTitle. frame_simpl. rewrite Hlast.
    destruct (bool_decide (Some last = activeWindow ws)) eqn:Hact;
      cbn [negb]; frame_simpl; [|reflexivity].
    apply bool_decide_eq_true_1 in Hact. symmetry in Hact.
    apply Hsettled in Hact. unfold usableTitle in Hact. congruence.
  - unfold pollWindowTitle. frame_simpl.
    destruct (activeWindow ws) as [w|] eqn:Hact; frame_simpl; [|reflexivity].
    destruct (bool_decide _); frame_simpl; [|reflexivity].
    pose proof (Hsettled w eq_refl) as Hus. unfold usableTitle in Hus.
    rewrite Hus. reflexivity.
  - unfold onActiveClientChanged.
    destruct (activeWindow ws) as [w|] eqn:Hact; [|reflexivity].
    pose proof (Hsettled w eq_refl) as Hus.
    pose proof (needsRetry_usableTitle ws w) as Hneed. rewrite Hus in Hneed.
    unfold needsRetry in Hneed. cbn [negb] in Hneed. rewrite Hneed.
    reflexivity.
  - unfold emitInitialState. destruct (activeWindow ws); reflexivity.
Qed.

Lemma timeouts_settled ws n e :
  (forall w, activeWindow ws = Some w -> usableTitle ws w = true) ->
  List.length (timers e) = n -> timers (timeouts n ws e) = [].
Proof.
  intros Hsettled. revert e. induction n as [|n IH]; intros e Hlen.
  - simpl. now destruct (timers e).
  - unfold timeouts. rewrite Nat.iter_succ_r. apply IH.
    destruct (nextTimer (timers e)) as [[t rest]|] eqn:Hnext.
    + rewrite (timeout_settled ws e t rest Hsettled Hnext).
      pose proof (nextTimer_length _ _ _ Hnext). lia.
    + apply nextTimer_none in Hnext. rewrite Hnext in Hlen. discriminate.
Qed.

(** X13.  Polling dies out.  When no window is active, or the active
    window has a usable caption, no timer expiry arms a successor: every
    expiry removes one pending timer, and after as many expiries as there
    were pending timers none is left, however many retry chains and poll
    chains had been started. *)
Theorem polling_dies_out ws e :
  (forall w, activeWindow ws = Some w -> usableTitle ws w = true) ->
  timers (timeouts (List.length (timers e)) ws e) = [].
Proof. intros Hsettled. now apply timeouts_settled. Qed.

Lemma polling_dies_out_witness :
  (forall w, activeWindow Sample.wsNoneEmpty = Some w ->
             usableTitle Sample.wsNoneEmpty w = true)
  /\ timers
       (timeouts
          (List.length
             (timers (run [(Sample.wsBrowserEmpty, WindowActivated);
                           (Sample.wsBrowserEmpty, WindowActivated);
                           (Sample.wsBrowserEmpty, Timeout)] (construct 0))))
          Sample.wsNoneEmpty
          (run [(Sample.wsBrowserEmpty, WindowActivated);
                (Sample.wsBrowserEmpty, WindowActivated);
                (Sample.wsBrowserEmpty, Timeout)] (construct 0)))
     = [].
Proof.
  assert (H : forall w, activeWindow Sample.wsNoneEmpty = Some w ->
                        usableTitle Sample.wsNoneEmpty w = true)
    by (intros w Hw; discriminate Hw).
  split; [exact H|].
  exact (polling_dies_out Sample.wsNoneEmpty _ H).
Defined.
